(** * The function execution sandbox of [function/runtime.go]

    A shallow embedding of [ExecutionEnvironment] and its methods
    ([Execute], [prepareArguments], the capability closures registered by
    [addHelpers], [addDatabaseFunctions] and [addVolatileFunctions],
    [clean] and [complete]), followed by the properties the specification
    states about them.

    What the Go code owns is written out as Rocq functions.  What it only
    calls (the goja interpreter, the Go standard library, the document
    store facade, the message bus, the run-history store, the clock) is
    gathered in the class [Host]; every theorem holds for every [Host]. *)

From Stdlib Require Import Ascii.
From Stdlib.Strings Require Import Byte.
From stdpp Require Import gmap strings list fin_maps pretty.

Set Warnings "-register-all".
Open Scope string_scope.
Open Scope list_scope.

(** * Data model *)

(** A Go [error], identified with the text its [Error()] method returns. *)
Definition error := string.

(** A Go [(T, error)] pair with the convention that one side is used. *)
Inductive result (A : Type) : Type :=
| Ok (a : A)
| Err (e : error).
Arguments Ok {A} a.
Arguments Err {A} e.

(** [primitive.ObjectID] is a 12 byte array; [Hex] prints each byte as two
    lower-case hexadecimal digits. *)
Definition ObjectID := list Byte.byte.

Definition hex_digit (n : N) : ascii :=
  ascii_of_N (if (n <? 10)%N then 48 + n else 87 + n).

Definition hex_byte (b : Byte.byte) : string :=
  let n := Byte.to_N b in
  String (hex_digit (n / 16)) (String (hex_digit (n mod 16)) EmptyString).

Definition Hex (oid : ObjectID) : string :=
  foldr (fun b acc => hex_byte b +:+ acc) EmptyString oid.

(** A Go [interface{}] holding one of the dynamic values that travel
    through the sandbox: decoded JSON, exported script values and document
    fields.  A document field can hold the store's [primitive.ObjectID]. *)
Inductive any : Type :=
| ANil
| ABool (b : bool)
| ANumber (n : Z)
| AString (s : string)
| AObjectID (oid : ObjectID)
| ASlice (l : list any)
| AMap (m : gmap string any).

(** [map[string]interface{}] *)
Abbreviation Doc := (gmap string any).

(** [url.Values], [http.Header] and [r.Form]: [map[string][]string] *)
Abbreviation Values := (gmap string (list string)).

(** [time.Time], as a number of clock ticks; the zero value is [0]. *)
Definition Time := Z.

(** [internal.PagedResult].  The struct is declared outside this package;
    the code here only walks [Results] and hands the rest on. *)
Record PagedResult := {
  Page : Z;
  Size : Z;
  Total : Z;
  Results : list Doc
}.

(** What the closures store in [Result.Content]. *)
Inductive ResultContent : Type :=
| CNil
| CString (s : string)
| CDoc (d : Doc)
| CPaged (p : PagedResult)
| CInt64 (n : Z).

(** [type Result struct { OK bool; Content interface{} }] *)
Record Result := {
  OK : bool;
  Content : ResultContent
}.

(** [internal.Command], the unit handed to the message bus. *)
Record Command := {
  SID : string;
  Type_ : string;
  Data_ : string;
  Channel : string;
  Token : string
}.

(** [ExecData], restricted to the fields [runtime.go] reads. *)
Record ExecData := {
  ID : ObjectID;
  Code : string;
  Version : Z
}.

(** [ExecHistory], the record of one run. *)
Record ExecHistory := {
  RunID : string;
  RunVersion : Z;
  Started : Time;
  Completed : Time;
  Success : bool;
  Output : list string
}.

(** The zero value of [ExecHistory]. *)
Definition ExecHistory_zero : ExecHistory :=
  {| RunID := EmptyString; RunVersion := 0%Z; Started := 0%Z; Completed := 0%Z;
     Success := false; Output := [] |}.

(** [http.Request], restricted to what [prepareArguments] reads. *)
Record Request := {
  Header : Values;
  URL : string;
  Body : string
}.

(** [http.Header.Get] for a key already in canonical form: the first value
    stored under the key, or the empty string. *)
Definition Header_Get (h : Values) (key : string) : string :=
  match h !! key with
  | Some (v :: _) => v
  | _ => EmptyString
  end.

(** The Go values this package passes to [vm.ToValue]. *)
Inductive GoValue : Type :=
| GoResult (r : Result)
| GoAny (a : any)
| GoValues (v : Values).

(** The [data interface{}] argument of [Execute]: the type assertion to a
    pointer to [http.Request] separates the two cases. *)
Inductive Payload : Type :=
| WebRequest (r : Request)
| Topic (v : GoValue).

(** The names bound in the interpreter's global scope by the three
    [add...] methods. *)
Inductive capability : Type :=
| cap_log | cap_create | cap_list | cap_getById
| cap_query | cap_update | cap_del | cap_send.

(** ** Scripts

    Running script code is the interpreter's business.  From the host's
    side a terminating run is a tree: it returns, it throws, or it calls
    one of the bound capabilities and goes on with the value it gets
    back. *)
Inductive script (V R : Type) : Type :=
| Ret (r : R)
| Throw (e : error)
| Call (c : capability) (args : list V) (k : V -> script V R).
Arguments Ret {V R} r.
Arguments Throw {V R} e.
Arguments Call {V R} c args k.

(** * External collaborators *)

Class Host := {
  (** ** github.com/dop251/goja *)
  Value : Type;
  Runtime : Type;
  Undefined : Value;
  IsNull : Value -> bool;
  IsUndefined : Value -> bool;
  ToValue : GoValue -> Value;
  Export : Value -> any;
  (** [vm.RunString]: top-level evaluation, ending in the globals. *)
  RunString : string -> script Value Runtime;
  (** [vm.Get] *)
  Get : Runtime -> string -> Value;
  (** [goja.AssertFunction] *)
  AssertFunction : Value -> option (Value -> list Value -> script Value Value);

  (** ** types declared elsewhere in the repository *)
  Auth : Type;
  ListParams : Type;
  ListParams_zero : ListParams;
  (** [Auth.ReconstructToken] *)
  ReconstructToken : Auth -> string;

  (** [vm.ExportTo], at the four target types used *)
  ExportTo_string : Value -> result string;
  ExportTo_map : Value -> result Doc;
  ExportTo_ListParams : Value -> result ListParams;
  ExportTo_clauses : Value -> result (list (list any));

  (** ** Go standard library *)
  json_Decode : string -> result any;
  json_Marshal : any -> result string;
  Sprint : list any -> string;
  ParseForm : Request -> result Values;
  URL_Query : string -> Values;

  (** ** the services behind [env.DB], [env.Base] and [env.Volatile],
      the run-history store, the clock and the identifier generator,
      all acting on one external state *)
  External : Type;
  Base_Add : Auth -> string -> Doc -> External -> result Doc * External;
  Base_List : Auth -> string -> ListParams -> External ->
              result PagedResult * External;
  Base_GetByID : Auth -> string -> string -> External ->
                 result Doc * External;
  Base_Query : Auth -> string -> Doc -> ListParams -> External ->
               result PagedResult * External;
  Base_Update : Auth -> string -> string -> Doc -> External ->
                result Doc * External;
  Base_Delete : Auth -> string -> string -> External ->
                result Z * External;
  ParseQuery : list (list any) -> result Doc;
  Publish : Command -> External -> option error * External;
  Ran : ObjectID -> ExecHistory -> External -> option error * External;
  time_Now : External -> Time * External;
  NewObjectID : External -> ObjectID * External
}.

(** * [fmt.Sprint]

    [log] formats its line with [fmt.Sprint].  How one operand is printed
    (the verb [%v]) is left open as [printArg]; how the operands are joined
    is the loop of the library's [doPrint]: a space is written before an
    operand when it is not the first and neither it nor the operand before
    it is a string. *)

(** [arg != nil && reflect.TypeOf(arg).Kind() == reflect.String] *)
Definition isString (arg : any) : bool :=
  match arg with
  | AString _ => true
  | _ => false
  end.

Fixpoint doPrint (printArg : any -> string) (prevString : bool)
    (argNum : nat) (a : list any) : string :=
  match a with
  | [] => EmptyString
  | arg :: rest =>
      (if (0 <? argNum)%nat && negb (isString arg) && negb prevString
       then " " else EmptyString) +:+
      printArg arg +:+ doPrint printArg (isString arg) (S argNum) rest
  end.

Definition fmt_Sprint (printArg : any -> string) (a : list any) : string :=
  doPrint printArg false 0 a.

(** The printed operands written one after the other, with nothing in
    between. *)
Definition concatenation (printArg : any -> string) (a : list any) : string :=
  foldr (fun arg acc => printArg arg +:+ acc) EmptyString a.

(** No operand of [a] is a non-string that follows a non-string, where
    [prevString] tells whether the operand before [a] was a string. *)
Fixpoint tight_after (prevString : bool) (a : list any) : bool :=
  match a with
  | [] => true
  | arg :: rest =>
      (isString arg || prevString) && tight_after (isString arg) rest
  end.

(** No two neighbours in [a] are both non-strings. *)
Definition tight (a : list any) : bool :=
  match a with
  | [] => true
  | arg :: rest => tight_after (isString arg) rest
  end.

(** Modelled from the spec: the constant [internal.FieldAccountID] is
    declared in package [internal], outside [runtime.go]; the specification
    calls the field accountId, as does the error message of [clean]. *)
Definition FieldAccountID : string := "accountId".

(** * The Document Sanitizer *)

(** One of the two blocks of [clean]: if [field] is present it must hold a
    [primitive.ObjectID], which is replaced by its hexadecimal form. *)
Definition clean_field (field : string) (msg : error) (doc : Doc)
  : Doc * option error :=
  match doc !! field with
  | Some id =>
      match id with
      | AObjectID oid => (<[field := AString (Hex oid)]> doc, None)
      | _ => (doc, Some msg)
      end
  | None => (doc, None)
  end.

(** [clean] updates the map it is given in place and returns an error or
    nil.  Here it returns the map as it is left, together with the error. *)
Definition clean (doc : Doc) : Doc * option error :=
  match clean_field "id" "unable to cast document id" doc with
  | (doc1, Some err) => (doc1, Some err)
  | (doc1, None) =>
      clean_field FieldAccountID "unable to cast document accountId" doc1
  end.

(** * The execution environment *)

Section Sandbox.
Context `{host : Host}.

(** [ExecutionEnvironment].  Its fields [DB], [Base] and [Volatile] are
    handles on services whose state lives in [External]. *)
Record ExecutionEnvironment := {
  EnvAuth : Auth;
  Data : ExecData;
  CurrentRun : ExecHistory
}.

(** Calls that leave the sandbox, in the order they are made. *)
Inductive Event : Type :=
| CallAdd (col : string) (doc : Doc)
| CallList (col : string) (params : ListParams)
| CallGetByID (col id : string)
| CallQuery (col : string) (filter : Doc) (params : ListParams)
| CallUpdate (col id : string) (doc : Doc)
| CallDelete (col id : string)
| CallPublish (msg : Command)
| CallRan (fn : ObjectID) (run : ExecHistory)
| LogPrintln (msg : string).
(* [LogPrintln msg]: [msg] is the text [log.Println] writes for its
   operands, which it always separates by a space. *)

Definition is_store_call (e : Event) : bool :=
  match e with
  | CallAdd _ _ | CallList _ _ | CallGetByID _ _
  | CallQuery _ _ _ | CallUpdate _ _ _ | CallDelete _ _ => true
  | _ => false
  end.

Definition is_ran_call (e : Event) : bool :=
  match e with
  | CallRan _ _ => true
  | _ => false
  end.

(** Everything outside the environment: the state of the services and the
    calls made so far. *)
Record World := {
  ext : External;
  calls : list Event
}.

Definition external {A} (op : External -> A * External) (e : Event)
    (w : World) : A * World :=
  let '(a, x) := op (ext w) in
  (a, {| ext := x; calls := calls w ++ [e] |}).

Definition set_CurrentRun (run : ExecHistory) (env : ExecutionEnvironment)
  : ExecutionEnvironment :=
  {| EnvAuth := EnvAuth env; Data := Data env; CurrentRun := run |}.

(** [run.Output = append(run.Output, line)] *)
Definition append_Output (line : string) (run : ExecHistory) : ExecHistory :=
  {| RunID := RunID run; RunVersion := RunVersion run;
     Started := Started run; Completed := Completed run;
     Success := Success run; Output := Output run ++ [line] |}.

(** [call.Argument(i)]: the [i]-th argument, [undefined] past the end. *)
Definition Argument (args : list Value) (i : nat) : Value :=
  default Undefined (args !! i).

(** [vm.ToValue(Result{Content: msg})]: the soft failure. *)
Definition failure (msg : string) : Value :=
  ToValue (GoResult {| OK := false; Content := CString msg |}).

(** [vm.ToValue(Result{OK: true, Content: c})] *)
Definition success (c : ResultContent) : Value :=
  ToValue (GoResult {| OK := true; Content := c |}).

(** The shape of a native function bound into the interpreter: it sees the
    environment it closes over and the world, and returns a script value. *)
Definition native : Type :=
  ExecutionEnvironment -> World -> list Value ->
  ExecutionEnvironment * World * Value.

(** ** [addHelpers] *)

Definition log : native := fun env w args =>
  if (length args =? 0)%nat then (env, w, Undefined)
  else
    let params := map Export args in
    (set_CurrentRun (append_Output (Sprint params) (CurrentRun env)) env,
     w, Undefined).

(** ** [addDatabaseFunctions] *)

(** The loop [for _, v := range result.Results] over [clean]: the maps are
    cleaned in place, in order, up to the first error. *)
Fixpoint clean_all (docs : list Doc) : result (list Doc) :=
  match docs with
  | [] => Ok []
  | d :: rest =>
      match clean d with
      | (_, Some err) => Err err
      | (d', None) =>
          match clean_all rest with
          | Ok rest' => Ok (d' :: rest')
          | Err err => Err err
          end
      end
  end.

Definition with_Results (p : PagedResult) (docs : list Doc) : PagedResult :=
  {| Page := Page p; Size := Size p; Total := Total p; Results := docs |}.

(** The optional [params] argument of [list] and [query], at position [i]:
    exported only when present and neither null nor undefined. *)
Definition optional_params (args : list Value) (i : nat) : result ListParams :=
  if (S i <=? length args)%nat then
    let v := Argument args i in
    if negb (IsNull v) && negb (IsUndefined v) then ExportTo_ListParams v
    else Ok ListParams_zero
  else Ok ListParams_zero.

Definition create : native := fun env w args =>
  if negb (length args =? 2)%nat then
    (env, w, failure "argument missmatch: you need 2 arguments for create(col, doc")
  else
  match ExportTo_string (Argument args 0) with
  | Err _ => (env, w, failure "the first argument should be a string")
  | Ok col =>
  match ExportTo_map (Argument args 1) with
  | Err _ => (env, w, failure "the second argument should be an object")
  | Ok doc =>
  let '(r, w1) := external (Base_Add (EnvAuth env) col doc) (CallAdd col doc) w in
  match r with
  | Err err => (env, w1, failure ("error calling create(): " +:+ err))
  | Ok doc =>
  match clean doc with
  | (_, Some err) => (env, w1, failure err)
  | (doc, None) => (env, w1, success (CDoc doc))
  end end end end.

Definition list_ : native := fun env w args =>
  if (length args <? 1)%nat then
    (env, w, failure "argument missmatch: your need at least 1 argument for list(col, [params])")
  else
  match ExportTo_string (Argument args 0) with
  | Err _ => (env, w, failure "the first agrument should be a string")
  | Ok col =>
  match optional_params args 1 with
  | Err _ => (env, w, failure "the second argument should be an object")
  | Ok params =>
  let '(r, w1) :=
    external (Base_List (EnvAuth env) col params) (CallList col params) w in
  match r with
  | Err err => (env, w1, failure ("error executing list: " +:+ err))
  | Ok res =>
  match clean_all (Results res) with
  | Err err => (env, w1, failure ("error cleaning doc: " +:+ err))
  | Ok docs => (env, w1, success (CPaged (with_Results res docs)))
  end end end end.

Definition getById : native := fun env w args =>
  if negb (length args =? 2)%nat then
    (env, w, failure "argument missmatch: you need 2 arguments for get(col, id)")
  else
  match ExportTo_string (Argument args 0) with
  | Err _ => (env, w, failure "the first argument should be a string")
  | Ok col =>
  match ExportTo_string (Argument args 1) with
  | Err _ => (env, w, failure "the second argument should be a string")
  | Ok id =>
  let '(r, w1) :=
    external (Base_GetByID (EnvAuth env) col id) (CallGetByID col id) w in
  match r with
  | Err err => (env, w1, failure ("error calling get(): " +:+ err))
  | Ok doc =>
  match clean doc with
  | (_, Some err) => (env, w1, failure err)
  | (doc, None) => (env, w1, success (CDoc doc))
  end end end end.

Definition query : native := fun env w args =>
  if (length args <? 2)%nat then
    (env, w, failure "argument missmatch: you need at least 2 arguments for query(col, filter, [params])")
  else
  match ExportTo_string (Argument args 0) with
  | Err _ => (env, w, failure "the first argument should be a string")
  | Ok col =>
  match ExportTo_clauses (Argument args 1) with
  | Err _ =>
      (env, w, failure "the second argument should be a query filter: [['field', '==', 'value'], ...]")
  | Ok clauses =>
  match ParseQuery clauses with
  | Err err => (env, w, failure ("error parsing query filter: " +:+ err))
  | Ok filter =>
  match optional_params args 2 with
  | Err _ => (env, w, failure "the second argument should be an object")
  | Ok params =>
  let '(r, w1) :=
    external (Base_Query (EnvAuth env) col filter params)
             (CallQuery col filter params) w in
  match r with
  | Err err => (env, w1, failure ("error executing query: " +:+ err))
  | Ok res =>
  match clean_all (Results res) with
  | Err err => (env, w1, failure ("error cleaning doc: " +:+ err))
  | Ok docs => (env, w1, success (CPaged (with_Results res docs)))
  end end end end end end.

Definition update : native := fun env w args =>
  if negb (length args =? 3)%nat then
    (env, w, failure "argument missmatch: you need 3 arguments for update(col, id, doc)")
  else
  match ExportTo_string (Argument args 0) with
  | Err _ => (env, w, failure "the first argument should be a string")
  | Ok col =>
  match ExportTo_string (Argument args 1) with
  | Err _ => (env, w, failure "the second argument should be a string")
  | Ok id =>
  match ExportTo_map (Argument args 2) with
  | Err err => (env, w, failure ("error executing update: " +:+ err))
  | Ok doc =>
  let '(r, w1) :=
    external (Base_Update (EnvAuth env) col id doc) (CallUpdate col id doc) w in
  match r with
  | Err err => (env, w1, failure ("error executing update: " +:+ err))
  | Ok updated =>
  match clean updated with
  | (_, Some err) => (env, w1, failure ("error cleaning doc: " +:+ err))
  | (updated, None) => (env, w1, success (CDoc updated))
  end end end end end.

Definition del : native := fun env w args =>
  if negb (length args =? 2)%nat then
    (env, w, failure "argument missmatch: you need 3 arguments for del(col, id)")
  else
  match ExportTo_string (Argument args 0) with
  | Err _ => (env, w, failure "the first argument should be a string")
  | Ok col =>
  match ExportTo_string (Argument args 1) with
  | Err _ => (env, w, failure "the second argument should be a string")
  | Ok id =>
  let '(r, w1) :=
    external (Base_Delete (EnvAuth env) col id) (CallDelete col id) w in
  match r with
  | Err err => (env, w1, failure ("error executing del: " +:+ err))
  | Ok deleted => (env, w1, success (CInt64 deleted))
  end end end.

(** ** [addVolatileFunctions] *)

Definition send : native := fun env w args =>
  if negb (length args =? 3)%nat then
    (env, w, failure "argument missmatch: you need 3 arguments for send(type, data, channel)")
  else
  match ExportTo_string (Argument args 0) with
  | Err _ => (env, w, failure "the first argument should be a string")
  | Ok typ =>
  match ExportTo_string (Argument args 2) with
  | Err _ => (env, w, failure "the third argument should be a string")
  | Ok channel =>
  match json_Marshal (Export (Argument args 1)) with
  | Err err => (env, w, failure ("error converting your data: " +:+ err))
  | Ok b =>
  let msg := {| SID := Hex (ID (Data env)); Type_ := typ; Data_ := b;
                Channel := channel;
                Token := ReconstructToken (EnvAuth env) |} in
  let '(r, w1) := external (Publish msg) (CallPublish msg) w in
  match r with
  | Some err => (env, w1, failure ("error publishing your message: " +:+ err))
  | None => (env, w1, success CNil)
  end end end end.

(** The global scope after the three [add...] methods have run. *)
Definition bound (c : capability) : native :=
  match c with
  | cap_log => log
  | cap_create => create
  | cap_list => list_
  | cap_getById => getById
  | cap_query => query
  | cap_update => update
  | cap_del => del
  | cap_send => send
  end.

(** ** [prepareArguments] *)

Definition prepareArguments (data : Payload) : result (list Value) :=
  match data with
  | WebRequest r =>
      let tail :=
        [ToValue (GoValues (URL_Query (URL r))); ToValue (GoValues (Header r))] in
      if String.eqb (Header_Get (Header r) "Content-Type") "application/json"
      then
        match json_Decode (Body r) with
        | Err err => Err err
        | Ok v => Ok ([ToValue (GoAny v)] ++ tail)%list
        end
      else if String.eqb (Header_Get (Header r) "Content-Type")
                         "application/x-www-form-urlencoded"
      then
        match ParseForm r with
        | Err err => Err err
        | Ok form => Ok ([ToValue (GoValues form)] ++ tail)%list
        end
      else Ok tail
  | Topic v => Ok [ToValue v]
  end.

(** ** Running script code against the bound capabilities *)

Fixpoint run_script {R} (p : script Value R)
    (env : ExecutionEnvironment) (w : World)
  : ExecutionEnvironment * World * result R :=
  match p with
  | Ret r => (env, w, Ok r)
  | Throw err => (env, w, Err err)
  | Call c args k =>
      let '(env1, w1, v) := bound c env w args in
      run_script (k v) env1 w1
  end.

(** ** [complete] *)

Definition complete (err : option error)
    (env : ExecutionEnvironment) (w : World)
  : ExecutionEnvironment * World :=
  let '(now, x) := time_Now (ext w) in
  let w1 := {| ext := x; calls := calls w |} in
  let run := CurrentRun env in
  let run1 :=
    {| RunID := RunID run; RunVersion := RunVersion run;
       Started := Started run; Completed := now;
       Success := match err with None => true | Some _ => false end;
       Output := Output run |} in
  let run2 := append_Output "Function completed" run1 in
  let run3 :=
    match err with
    | Some msg => append_Output msg run2
    | None => run2
    end in
  let env1 := set_CurrentRun run3 env in
  let '(r, w2) :=
    external (Ran (ID (Data env1)) run3) (CallRan (ID (Data env1)) run3) w1 in
  match r with
  | Some e =>
      (env1, {| ext := ext w2;
                calls := calls w2 ++
                  [LogPrintln ("error logging function complete:  " +:+ e)] |})
  | None => (env1, w2)
  end.

(** ** [Execute] *)

(** What a call of [Execute] leaves behind: the environment and the world
    at the moment it returns, the argument of the [complete] goroutine it
    started (if it started one), and the error it returns. *)
Record Outcome := {
  env_after : ExecutionEnvironment;
  world_after : World;
  spawned : option (option error);
  returned : option error
}.

Definition no_handle : error :=
  "unable to find function " +:+
  String "034"%char ("handle" +:+ String "034"%char EmptyString).

Definition Execute (env : ExecutionEnvironment) (w : World) (data : Payload)
  : Outcome :=
  let '(env1, w1, loaded) := run_script (RunString (Code (Data env))) env w in
  match loaded with
  | Err err =>
      {| env_after := env1; world_after := w1; spawned := None;
         returned := Some err |}
  | Ok vm =>
  match AssertFunction (Get vm "handle") with
  | None =>
      {| env_after := env1; world_after := w1; spawned := None;
         returned := Some no_handle |}
  | Some handler =>
  match prepareArguments data with
  | Err err =>
      {| env_after := env1; world_after := w1; spawned := None;
         returned := Some ("error preparing argument: " +:+ err) |}
  | Ok args =>
  let '(oid, x1) := NewObjectID (ext w1) in
  let '(now, x2) := time_Now x1 in
  let w2 := {| ext := x2; calls := calls w1 |} in
  let run :=
    {| RunID := Hex oid; RunVersion := Version (Data env1);
       Started := now; Completed := 0%Z; Success := false; Output := [] |} in
  let env2 := set_CurrentRun (append_Output "Function started" run) env1 in
  let '(env3, w3, r) := run_script (handler Undefined args) env2 w2 in
  let err := match r with Err e => Some e | Ok _ => None end in
  {| env_after := env3; world_after := w3; spawned := Some err;
     returned :=
       match err with
       | Some e => Some ("error executing your function: " +:+ e)
       | None => None
       end |}
  end end end.

(** The goroutine started by [Execute], run to its end. *)
Definition finish (o : Outcome) : ExecutionEnvironment * World :=
  match spawned o with
  | Some err => complete err (env_after o) (world_after o)
  | None => (env_after o, world_after o)
  end.

End Sandbox.

(** * Vocabulary of the specification *)

Section Statements.
Context `{host : Host}.

(** The environment after [lines] have been appended to the current run's
    log and nothing else has changed. *)
Definition add_Output (lines : list string) (env : ExecutionEnvironment)
  : ExecutionEnvironment :=
  let run := CurrentRun env in
  set_CurrentRun
    {| RunID := RunID run; RunVersion := RunVersion run;
       Started := Started run; Completed := Completed run;
       Success := Success run; Output := Output run ++ lines |} env.

(** The data-access capabilities. *)
Definition data_capability (c : capability) : bool :=
  match c with
  | cap_log | cap_send => false
  | _ => true
  end.

(** The argument counts of the specification's table of data operations:
    [create] 2, [list] 1 to 2, [getById] 2, [query] 2 to 3, [update] 3,
    [del] 2. *)
Definition spec_arity (c : capability) (n : nat) : bool :=
  match c with
  | cap_create | cap_getById | cap_del => (n =? 2)%nat
  | cap_list => (1 <=? n)%nat && (n <=? 2)%nat
  | cap_query => (2 <=? n)%nat && (n <=? 3)%nat
  | cap_update => (n =? 3)%nat
  | cap_send => (n =? 3)%nat
  | cap_log => true
  end.

(** The argument counts the closures let through: [list] and [query] only
    have a lower bound. *)
Definition count_accepted (c : capability) (n : nat) : bool :=
  match c with
  | cap_create | cap_getById | cap_del => (n =? 2)%nat
  | cap_list => (1 <=? n)%nat
  | cap_query => (2 <=? n)%nat
  | cap_update => (n =? 3)%nat
  | cap_send => (n =? 3)%nat
  | cap_log => true
  end.

Definition is_Ok {A} (r : result A) : bool :=
  match r with
  | Ok _ => true
  | Err _ => false
  end.

(** Every argument a data operation reads exports to the type it is read
    at. *)
Definition types_accepted (c : capability) (args : list Value) : bool :=
  match c with
  | cap_create =>
      is_Ok (ExportTo_string (Argument args 0)) &&
      is_Ok (ExportTo_map (Argument args 1))
  | cap_list =>
      is_Ok (ExportTo_string (Argument args 0)) &&
      is_Ok (optional_params args 1)
  | cap_getById | cap_del =>
      is_Ok (ExportTo_string (Argument args 0)) &&
      is_Ok (ExportTo_string (Argument args 1))
  | cap_query =>
      is_Ok (ExportTo_string (Argument args 0)) &&
      is_Ok (ExportTo_clauses (Argument args 1)) &&
      is_Ok (optional_params args 2)
  | cap_update =>
      is_Ok (ExportTo_string (Argument args 0)) &&
      is_Ok (ExportTo_string (Argument args 1)) &&
      is_Ok (ExportTo_map (Argument args 2))
  | _ => true
  end.

(** A call whose argument count or argument types the closure refuses. *)
Definition rejected (c : capability) (args : list Value) : bool :=
  negb (count_accepted c (length args)) || negb (types_accepted c args).

(** [sanitizer_fails env w c args w' msg]: the call [c(args)] made in
    environment [env] and world [w] reaches the store, the store answers
    with a document (or a page of documents) that [clean] refuses; [w'] is
    the world after the store call and [msg] the text the closure builds
    from the error of [clean]. *)
Inductive sanitizer_fails (env : ExecutionEnvironment) (w : World)
  : capability -> list Value -> World -> string -> Prop :=
| fails_in_create a0 a1 col doc d x e :
    ExportTo_string a0 = Ok col ->
    ExportTo_map a1 = Ok doc ->
    Base_Add (EnvAuth env) col doc (ext w) = (Ok d, x) ->
    (clean d).2 = Some e ->
    sanitizer_fails env w cap_create [a0; a1]
      {| ext := x; calls := calls w ++ [CallAdd col doc] |} e
| fails_in_getById a0 a1 col id d x e :
    ExportTo_string a0 = Ok col ->
    ExportTo_string a1 = Ok id ->
    Base_GetByID (EnvAuth env) col id (ext w) = (Ok d, x) ->
    (clean d).2 = Some e ->
    sanitizer_fails env w cap_getById [a0; a1]
      {| ext := x; calls := calls w ++ [CallGetByID col id] |} e
| fails_in_update a0 a1 a2 col id doc d x e :
    ExportTo_string a0 = Ok col ->
    ExportTo_string a1 = Ok id ->
    ExportTo_map a2 = Ok doc ->
    Base_Update (EnvAuth env) col id doc (ext w) = (Ok d, x) ->
    (clean d).2 = Some e ->
    sanitizer_fails env w cap_update [a0; a1; a2]
      {| ext := x; calls := calls w ++ [CallUpdate col id doc] |}
      ("error cleaning doc: " +:+ e)
| fails_in_list args col params p x e :
    (1 <= length args)%nat ->
    ExportTo_string (Argument args 0) = Ok col ->
    optional_params args 1 = Ok params ->
    Base_List (EnvAuth env) col params (ext w) = (Ok p, x) ->
    clean_all (Results p) = Err e ->
    sanitizer_fails env w cap_list args
      {| ext := x; calls := calls w ++ [CallList col params] |}
      ("error cleaning doc: " +:+ e)
| fails_in_query args col clauses filter params p x e :
    (2 <= length args)%nat ->
    ExportTo_string (Argument args 0) = Ok col ->
    ExportTo_clauses (Argument args 1) = Ok clauses ->
    ParseQuery clauses = Ok filter ->
    optional_params args 2 = Ok params ->
    Base_Query (EnvAuth env) col filter params (ext w) = (Ok p, x) ->
    clean_all (Results p) = Err e ->
    sanitizer_fails env w cap_query args
      {| ext := x; calls := calls w ++ [CallQuery col filter params] |}
      ("error cleaning doc: " +:+ e).

(** [effect env w env' w']: going from [env], [w] to [env'], [w'] appended
    some lines to the log of the current run and made some external calls,
    none of them to the run-history store, and changed nothing else. *)
Definition effect (env : ExecutionEnvironment) (w : World)
    (env' : ExecutionEnvironment) (w' : World) : Prop :=
  exists lines evs,
    env' = add_Output lines env /\
    calls w' = calls w ++ evs /\
    Forall (fun e => is_ran_call e = false) evs.

(** Top-level evaluation of the function's source. *)
Definition load (env : ExecutionEnvironment) (w : World)
  : ExecutionEnvironment * World * result Runtime :=
  run_script (RunString (Code (Data env))) env w.

(** [load_failure env w err]: loading ends in [err], either because the
    source throws [err] while it is evaluated, or because it leaves no
    function under the name [handle] and [err] is the error [Execute]
    builds for that. *)
Definition load_failure (env : ExecutionEnvironment) (w : World)
    (err : error) : Prop :=
  match (load env w).2 with
  | Err e => err = e
  | Ok vm => AssertFunction (Get vm "handle") = None /\ err = no_handle
  end.

(** ** Vocabulary for the remaining paths of the code *)

(** What the type assertion in [clean] lets through for a field: nothing
    stored under the key, or a [primitive.ObjectID]. *)
Definition castable (v : option any) : bool :=
  match v with
  | None | Some (AObjectID _) => true
  | Some _ => false
  end.

(** The field holds the store's own identifier type. *)
Definition opaque (v : option any) : bool :=
  match v with
  | Some (AObjectID _) => true
  | _ => false
  end.

(** Neither identifier field of the document holds an [ObjectID]. *)
Definition sanitized (d : Doc) : Prop :=
  opaque (d !! "id") = false /\ opaque (d !! FieldAccountID) = false.

(** Every document inside the content of a [Result] is sanitized. *)
Definition script_safe (c : ResultContent) : Prop :=
  match c with
  | CDoc d => sanitized d
  | CPaged p => Forall sanitized (Results p)
  | _ => True
  end.

(** [send] gets as far as the publisher: three arguments, the first and
    the third export to strings, the second serializes. *)
Definition send_ready (args : list Value) : bool :=
  (length args =? 3)%nat &&
  is_Ok (ExportTo_string (Argument args 0)) &&
  is_Ok (ExportTo_string (Argument args 2)) &&
  is_Ok (json_Marshal (Export (Argument args 1))).

(** The number of calls to the run-history store among [evs]. *)
Definition ran_count (evs : list Event) : nat :=
  length (List.filter is_ran_call evs).

End Statements.

(** * A sample host

    A small interpreter, store and bus on which the definitions above can
    be run. *)

Module Sample.

Inductive value : Type :=
| VUndefined
| VNull
| VGo (g : GoValue)
| VFunction (name : string).

Definition str (s : string) : value := VGo (GoAny (AString s)).
Definition num (n : Z) : value := VGo (GoAny (ANumber n)).
Definition obj (d : Doc) : value := VGo (GoAny (AMap d)).
Definition soft (msg : string) : value :=
  VGo (GoResult {| OK := false; Content := CString msg |}).

(** Replies of the services, fixed in advance. *)
Record services := {
  doc_reply : Doc -> result Doc;
  page_reply : result PagedResult;
  delete_reply : result Z;
  publish_reply : option error;
  ran_reply : option error;
  clock : Time;
  next_oid : ObjectID
}.

Definition export_string (v : value) : result string :=
  match v with
  | VGo (GoAny (AString s)) => Ok s
  | _ => Err "could not convert to string"
  end.

Definition export_map (v : value) : result Doc :=
  match v with
  | VGo (GoAny (AMap m)) => Ok m
  | _ => Err "could not convert to map"
  end.

Definition export_params (v : value) : result unit :=
  match v with
  | VGo (GoAny (AMap _)) => Ok tt
  | _ => Err "could not convert to ListParams"
  end.

Definition slice_of (a : any) : option (list any) :=
  match a with
  | ASlice l => Some l
  | _ => None
  end.

Definition export_clauses (v : value) : result (list (list any)) :=
  match v with
  | VGo (GoAny (ASlice l)) =>
      match mapM slice_of l with
      | Some ls => Ok ls
      | None => Err "could not convert to [][]interface{}"
      end
  | _ => Err "could not convert to [][]interface{}"
  end.

Definition export (v : value) : any :=
  match v with
  | VGo (GoAny a) => a
  | _ => ANil
  end.

Definition quoted (s : string) : string :=
  String "034"%char (s +:+ String "034"%char EmptyString).

Definition marshal (a : any) : result string :=
  match a with
  | ANil => Ok "null"
  | ABool true => Ok "true"
  | ABool false => Ok "false"
  | ANumber n => Ok (pretty n)
  | AString s => Ok (quoted s)
  | AObjectID oid => Ok (quoted (Hex oid))
  | _ => Err "json: unsupported type"
  end.

Definition decode (body : string) : result any :=
  if String.eqb body "true" then Ok (ABool true)
  else if String.eqb body "null" then Ok ANil
  else if String.eqb body "7" then Ok (ANumber 7)
  else if String.eqb body "{}" then Ok (AMap ∅)
  else Err "invalid character".

Definition printable (a : any) : string :=
  match a with
  | ANil => "<nil>"
  | ABool true => "true"
  | ABool false => "false"
  | ANumber n => pretty n
  | AString s => s
  | AObjectID oid => Hex oid
  | ASlice _ => "[...]"
  | AMap _ => "map[...]"
  end.

Definition is_string (a : any) : bool :=
  match a with
  | AString _ => true
  | _ => false
  end.

(** [fmt.Sprint]: a space goes between two operands when neither is a
    string. *)
Fixpoint sprint_from (prev_string : bool) (first : bool) (l : list any)
  : string :=
  match l with
  | [] => EmptyString
  | a :: rest =>
      (if negb first && negb (is_string a) && negb prev_string
       then " " else EmptyString) +:+
      printable a +:+ sprint_from (is_string a) false rest
  end.

Definition handle_create (this : value) (args : list value)
  : script value value :=
  Call cap_create [str "todos"; default VUndefined (args !! 0%nat)]
    (fun _ => Ret VUndefined).

Definition handle_send (this : value) (args : list value)
  : script value value :=
  Call cap_send [str "notify"; VGo (GoAny (ANumber 1)); str "room1"]
    (fun _ => Ret VUndefined).

Definition handle_throw (this : value) (args : list value)
  : script value value :=
  Call cap_log [str "working on "; default VUndefined (args !! 0%nat)]
    (fun _ => Throw "Error: boom").

Definition functions (name : string)
  : option (value -> list value -> script value value) :=
  if String.eqb name "create_todo" then Some handle_create
  else if String.eqb name "notify" then Some handle_send
  else if String.eqb name "boom" then Some handle_throw
  else None.

Definition src_create : string :=
  "function handle(body){ create('todos', body); }".
Definition src_send : string :=
  "function handle(q,h){ send('notify', 1, 'room1'); }".
Definition src_throw : string :=
  "function handle(x){ log('working on ', x); throw new Error('boom'); }".
Definition src_no_handle : string :=
  "log('loading'); var handle = 3;".
Definition src_syntax_error : string :=
  "function handle( {".

(** The interpreter, on the five sources above. *)
Definition run_string (code : string) : script value (gmap string value) :=
  if String.eqb code src_create
  then Ret {["handle" := VFunction "create_todo"]}
  else if String.eqb code src_send
  then Ret {["handle" := VFunction "notify"]}
  else if String.eqb code src_throw
  then Ret {["handle" := VFunction "boom"]}
  else if String.eqb code src_no_handle
  then Call cap_log [str "loading"]
         (fun _ => Ret {["handle" := VGo (GoAny (ANumber 3))]})
  else Throw "SyntaxError: Unexpected token".

Definition assert_function (v : value)
  : option (value -> list value -> script value value) :=
  match v with
  | VFunction name => functions name
  | _ => None
  end.

Definition tick (x : services) : Time * services :=
  (clock x,
   {| doc_reply := doc_reply x; page_reply := page_reply x;
      delete_reply := delete_reply x; publish_reply := publish_reply x;
      ran_reply := ran_reply x; clock := (clock x + 1)%Z;
      next_oid := next_oid x |}).

Definition host : Host := {|
  Value := value;
  Runtime := gmap string value;
  Undefined := VUndefined;
  IsNull := fun v => match v with VNull => true | _ => false end;
  IsUndefined := fun v => match v with VUndefined => true | _ => false end;
  ToValue := VGo;
  Export := export;
  RunString := run_string;
  Get := fun vm name => default VUndefined (vm !! name);
  AssertFunction := assert_function;
  Auth := string;
  ListParams := unit;
  ListParams_zero := tt;
  ReconstructToken := fun a => a;
  ExportTo_string := export_string;
  ExportTo_map := export_map;
  ExportTo_ListParams := export_params;
  ExportTo_clauses := export_clauses;
  json_Decode := decode;
  json_Marshal := marshal;
  Sprint := sprint_from false true;
  ParseForm := fun r =>
    if String.eqb (Body r) "%" then Err "invalid URL escape" else Ok ∅;
  URL_Query := fun u =>
    if String.eqb u EmptyString then ∅ else {["q" := [u]]};
  External := services;
  Base_Add := fun _ _ doc x => (doc_reply x doc, x);
  Base_List := fun _ _ _ x => (page_reply x, x);
  Base_GetByID := fun _ _ _ x => (doc_reply x ∅, x);
  Base_Query := fun _ _ _ _ x => (page_reply x, x);
  Base_Update := fun _ _ _ doc x => (doc_reply x doc, x);
  Base_Delete := fun _ _ _ x => (delete_reply x, x);
  ParseQuery := fun clauses =>
    if forallb (fun c => (length c =? 3)%nat) clauses then Ok ∅
    else Err "invalid clause";
  Publish := fun _ x => (publish_reply x, x);
  Ran := fun _ _ x => (ran_reply x, x);
  time_Now := tick;
  NewObjectID := fun x => (next_oid x, x)
|}.

Definition oid1 : ObjectID :=
  [x5f; x00; xa1; x0b; x00; x00; x00; x00; x00; x00; x00; x2a].

(** A store that stamps what it is given with an [ObjectID]. *)
Definition stamping (doc : Doc) : result Doc :=
  Ok (<["id" := AObjectID oid1]> doc).

(** A store whose documents carry their identifier as a string. *)
Definition stringly (doc : Doc) : result Doc :=
  Ok (<["id" := AString "5f00a10b000000000000002a"]> doc).



Definition services_with (reply : Doc -> result Doc) (docs : list Doc)
  : services :=
  {| doc_reply := reply;
     page_reply := Ok {| Page := 1%Z; Size := 25%Z;
                         Total := Z.of_nat (length docs); Results := docs |};
     delete_reply := Ok 1%Z;
     publish_reply := None;
     ran_reply := None;
     clock := 1000%Z;
     next_oid := oid1 |}.

Definition bus_down (x : services) : services :=
  {| doc_reply := doc_reply x; page_reply := page_reply x;
     delete_reply := delete_reply x;
     publish_reply := Some "connection refused";
     ran_reply := ran_reply x; clock := clock x; next_oid := next_oid x |}.

Definition world_with (reply : Doc -> result Doc) (docs : list Doc)
  : @World host :=
  @Build_World host (services_with reply docs) [].

Definition env_of (code : string) : @ExecutionEnvironment host :=
  @Build_ExecutionEnvironment host "Bearer acct|tok"
    {| ID := oid1; Code := code; Version := 3%Z |} ExecHistory_zero.

Definition milk : Doc := {["title" := AString "buy milk"]}.

Definition hex1 : string := "5f00a10b000000000000002a".

(** [milk] as the stamping store returns it, as the sanitizer leaves it,
    and as the stringly store returns it. *)
Definition milk_stored : Doc := <["id" := AObjectID oid1]> milk.
Definition milk_clean : Doc := <["id" := AString hex1]> milk.

Definition token : string := "Bearer acct|tok".

Definition envelope (data : string) : Command :=
  {| SID := hex1; Type_ := "notify"; Data_ := data; Channel := "room1";
     Token := token |}.

Definition json_request (body : string) : Request :=
  {| Header := {["Content-Type" := ["application/json"]]};
     URL := "page=2"; Body := body |}.

Definition text_request : Request :=
  {| Header := {["Content-Type" := ["text/plain"]]};
     URL := EmptyString; Body := "hello" |}.

(** [milk] as stored, with the owning account written as a string. *)
Definition milk_mixed : Doc := <["accountId" := AString "acct-1"]> milk_stored.

Definition form_request : Request :=
  {| Header := {["Content-Type" := ["application/x-www-form-urlencoded"]]};
     URL := "page=2"; Body := "title=milk" |}.

Definition bare_request : Request :=
  {| Header := ∅; URL := EmptyString; Body := "{oops" |}.

(** A record left over from an earlier run. *)
Definition stale : ExecHistory :=
  {| RunID := "5f00a10b0000000000000001"; RunVersion := 2%Z;
     Started := 10%Z; Completed := 11%Z; Success := true;
     Output := ["Function started"; "old line"; "Function completed"] |}.

End Sample.

(** * Properties *)

Section Properties.
Context `{host : Host}.

(** ** The sanitizer *)



Lemma clean_field_inv field msg (doc doc' : Doc) :
  clean_field field msg doc = (doc', None) ->
  (doc !! field = None /\ doc' = doc) \/
  (exists oid, doc !! field = Some (AObjectID oid) /\
               doc' = <[field := AString (Hex oid)]> doc).
Proof.
  unfold clean_field. destruct (doc !! field) as [[]|] eqn:Hf; intros Heq;
    inversion Heq; subst; eauto.
Qed.

Lemma FieldAccountID_neq_id : FieldAccountID <> "id".
Proof. discriminate. Qed.


(** ** The argument adapter *)

(** C5.  A web request whose [Content-Type] is [application/json] and whose
    body decodes yields three arguments: the decoded body, the URL query
    and the headers, in that order.  A web request whose [Content-Type] is
    neither [application/json] nor [application/x-www-form-urlencoded]
    yields two: the URL query and the headers. *)
Theorem prepareArguments_web (r : Request) :
  (forall v,
     Header_Get (Header r) "Content-Type" = "application/json" ->
     json_Decode (Body r) = Ok v ->
     prepareArguments (WebRequest r) =
       Ok [ToValue (GoAny v); ToValue (GoValues (URL_Query (URL r)));
           ToValue (GoValues (Header r))]) /\
  (Header_Get (Header r) "Content-Type" <> "application/json" ->
   Header_Get (Header r) "Content-Type" <> "application/x-www-form-urlencoded" ->
   prepareArguments (WebRequest r) =
     Ok [ToValue (GoValues (URL_Query (URL r)));
         ToValue (GoValues (Header r))]).
Proof.
  split.
  - intros v Hct Hbody. unfold prepareArguments.
    rewrite Hct, Hbody. reflexivity.
  - intros Hjson Hform. unfold prepareArguments.
    apply String.eqb_neq in Hjson, Hform.
    rewrite Hjson, Hform. reflexivity.
Qed.

(** C6.  A payload that is not a web request always yields exactly one
    argument, the payload itself handed to the interpreter. *)
Theorem prepareArguments_topic (v : GoValue) :
  prepareArguments (Topic v) = Ok [ToValue v].
Proof. reflexivity. Qed.

(** X17.  The adapter fails only on a web request: on a JSON body that does not
    decode, or on a form body that does not parse. *)
Lemma prepareArguments_Err (data : Payload) (e : error) :
  prepareArguments data = Err e <->
  exists r, data = WebRequest r /\
    ((Header_Get (Header r) "Content-Type" = "application/json" /\
      json_Decode (Body r) = Err e) \/
     (Header_Get (Header r) "Content-Type" =
        "application/x-www-form-urlencoded" /\
      ParseForm r = Err e)).
Proof.
  split.
  - destruct data as [r | v]; [|discriminate]. simpl.
    destruct (String.eqb _ "application/json") eqn:Hjson.
    + apply String.eqb_eq in Hjson.
      destruct (json_Decode (Body r)) as [v | e'] eqn:Hdec; [discriminate|].
      intros [= ->]. exists r. split; [done|]. by left.
    + destruct (String.eqb _ "application/x-www-form-urlencoded") eqn:Hform;
        [|discriminate].
      apply String.eqb_eq in Hform.
      destruct (ParseForm r) as [f | e'] eqn:Hparse; [discriminate|].
      intros [= ->]. exists r. split; [done|]. by right.
  - intros (r & -> & [[Hct Hdec] | [Hct Hparse]]); simpl.
    + by rewrite Hct, Hdec.
    + by rewrite Hct, Hparse.
Qed.

(** ** Logging *)

(** [log] in terms of the host's [Sprint], whatever it is. *)
Lemma log_appends_one_line (env : ExecutionEnvironment) (w : World) :
  log env w [] = (env, w, Undefined) /\
  (forall a args,
     exists env',
       log env w (a :: args) = (env', w, Undefined) /\
       Output (CurrentRun env') =
         (Output (CurrentRun env) ++ [Sprint (map Export (a :: args))])%list /\
       length (Output (CurrentRun env')) = S (length (Output (CurrentRun env))) /\
       EnvAuth env' = EnvAuth env /\ Data env' = Data env).
Proof.
  split; [reflexivity|].
  intros a args. eexists. split; [reflexivity|]. simpl.
  repeat split. rewrite length_app. simpl. lia.
Qed.

Lemma append_empty_r (s : string) : s +:+ EmptyString = s.
Proof.
  induction s as [|c s IH]; [done|].
  change (String c (s +:+ EmptyString) = String c s). by rewrite IH.
Qed.

Lemma doPrint_tight printArg (prevString : bool) (argNum : nat) (a : list any) :
  (if (0 <? argNum)%nat then tight_after prevString a
   else tight a) = true ->
  doPrint printArg prevString argNum a = concatenation printArg a.
Proof.
  revert prevString argNum. induction a as [|arg rest IH];
    intros prevString argNum Htight; simpl; [done|].
  rewrite (IH (isString arg) (S argNum)).
  - destruct (0 <? argNum)%nat eqn:Hnum; simpl in *; [|done].
    apply andb_prop in Htight as [Hhere _].
    by destruct (isString arg), prevString.
  - simpl. destruct (0 <? argNum)%nat; simpl in Htight; [|done].
    by apply andb_prop in Htight as [_ ?].
Qed.

(** C10, as amended.  [log] without arguments returns [undefined] and
    changes nothing.  With at least one argument it returns [undefined]
    and appends exactly one line to the log of the current run, touching
    nothing else and with no failing path.  With Go's [fmt.Sprint] the
    line is the printed forms of the exported arguments in order, with one
    space before each argument that is not a string and follows an
    argument that is not a string; it is their plain concatenation
    whenever no such pair of neighbours occurs, in particular for a single
    argument. *)
Theorem log_appends_Sprint_line (printArg : any -> string)
    (env : ExecutionEnvironment) (w : World) :
  (forall a, Sprint a = fmt_Sprint printArg a) ->
  log env w [] = (env, w, Undefined) /\
  (forall a args,
     exists env',
       log env w (a :: args) = (env', w, Undefined) /\
       Output (CurrentRun env') =
         Output (CurrentRun env) ++
           [fmt_Sprint printArg (map Export (a :: args))] /\
       length (Output (CurrentRun env')) = S (length (Output (CurrentRun env))) /\
       EnvAuth env' = EnvAuth env /\ Data env' = Data env /\
       (tight (map Export (a :: args)) = true ->
        fmt_Sprint printArg (map Export (a :: args)) =
          concatenation printArg (map Export (a :: args))) /\
       (args = [] -> fmt_Sprint printArg [Export a] = printArg (Export a))).
Proof.
  intros Hfmt. destruct (log_appends_one_line env w) as [Hnone Hsome].
  split; [exact Hnone|]. intros a args.
  destruct (Hsome a args) as (env' & Hlog & Hout & Hlen & Hauth & Hdata).
  exists env'. rewrite Hfmt in Hout.
  repeat (split; [assumption|]). split.
  - intros Htight. by apply doPrint_tight.
  - intros _. unfold fmt_Sprint. simpl. rewrite append_empty_r. reflexivity.
Qed.

(** ** Messaging *)

(** C8.  [send] with three arguments whose first and third export to
    strings: if the second serializes, exactly one envelope is handed to
    the publisher, carrying the function's identifier, the given type, the
    serialized data, the given channel and the token reconstructed from the
    environment's [Auth]; the call returns [Result{OK: true}] when the
    publisher reports no error and a soft failure when it does.  If the
    second argument does not serialize, nothing is published and the call
    returns a soft failure. *)
Theorem send_publishes_envelope (env : ExecutionEnvironment) (w : World)
    (a0 a1 a2 : Value) (typ channel : string) :
  ExportTo_string a0 = Ok typ ->
  ExportTo_string a2 = Ok channel ->
  match json_Marshal (Export a1) with
  | Ok b =>
      let msg := {| SID := Hex (ID (Data env)); Type_ := typ; Data_ := b;
                    Channel := channel;
                    Token := ReconstructToken (EnvAuth env) |} in
      send env w [a0; a1; a2] =
        (env,
         {| ext := (Publish msg (ext w)).2;
            calls := calls w ++ [CallPublish msg] |},
         match (Publish msg (ext w)).1 with
         | None => success CNil
         | Some err => failure ("error publishing your message: " +:+ err)
         end)
  | Err err =>
      send env w [a0; a1; a2] =
        (env, w, failure ("error converting your data: " +:+ err))
  end.
Proof.
  intros Htyp Hchan. unfold send, Argument. simpl.
  rewrite Htyp, Hchan.
  destruct (json_Marshal (Export a1)) as [b | err]; [|reflexivity].
  unfold external. simpl.
  destruct (Publish _ (ext w)) as [[e|] x]; reflexivity.
Qed.

(** ** What a capability call can change *)

Lemma add_Output_nil (env : ExecutionEnvironment) : add_Output [] env = env.
Proof.
  destruct env as [a d [i v st c ok out]]. unfold add_Output, set_CurrentRun.
  simpl. by rewrite app_nil_r.
Qed.

Lemma add_Output_app (l1 l2 : list string) (env : ExecutionEnvironment) :
  add_Output l2 (add_Output l1 env) = add_Output (l1 ++ l2) env.
Proof. unfold add_Output, set_CurrentRun. simpl. by rewrite app_assoc. Qed.

Lemma external_inv {A} (op : External -> A * External) e (w w' : World) a :
  external op e w = (a, w') ->
  calls w' = calls w ++ [e] /\ op (ext w) = (a, ext w').
Proof.
  unfold external. destruct (op (ext w)) as [a' x]. intros Heq.
  inversion Heq; subst. by simpl.
Qed.

Lemma effect_refl env w : effect env w env w.
Proof.
  exists [], []. rewrite add_Output_nil, app_nil_r.
  split; [reflexivity|]. split; [reflexivity|]. constructor.
Qed.

Lemma effect_trans env w env1 w1 env2 w2 :
  effect env w env1 w1 -> effect env1 w1 env2 w2 -> effect env w env2 w2.
Proof.
  intros (l1 & e1 & -> & Hc1 & Hf1) (l2 & e2 & -> & Hc2 & Hf2).
  exists (l1 ++ l2), (e1 ++ e2). rewrite add_Output_app, Hc2, Hc1, app_assoc.
  split; [reflexivity|]. split; [reflexivity|]. by apply Forall_app.
Qed.

Lemma effect_external {A} (op : External -> A * External) e env w w' a :
  external op e w = (a, w') ->
  is_ran_call e = false ->
  effect env w env w'.
Proof.
  intros Hext He. apply external_inv in Hext as [Hc _].
  exists [], [e]. rewrite add_Output_nil.
  split; [reflexivity|]. split; [exact Hc|]. by apply Forall_singleton.
Qed.

Ltac branch :=
  repeat match goal with
    | |- context [match ?x with _ => _ end] => destruct x eqn:?
    end.

Ltac unchanged_or_one_call :=
  simpl;
  first [ apply effect_refl
        | eapply effect_external; [eassumption | reflexivity] ].

Lemma bound_effect c env w args :
  effect env w (bound c env w args).1.1 (bound c env w args).1.2.
Proof.
  destruct c; simpl.
  - unfold log. destruct (length args =? 0)%nat; simpl.
    + apply effect_refl.
    + exists [Sprint (map Export args)], []. rewrite app_nil_r.
      split; [reflexivity|]. split; [reflexivity|]. constructor.
  - unfold create. branch; unchanged_or_one_call.
  - unfold list_. branch; unchanged_or_one_call.
  - unfold getById. branch; unchanged_or_one_call.
  - unfold query. branch; unchanged_or_one_call.
  - unfold update. branch; unchanged_or_one_call.
  - unfold del. branch; unchanged_or_one_call.
  - unfold send. branch; unchanged_or_one_call.
Qed.

Lemma run_script_effect {R} (p : script Value R) env w :
  effect env w (run_script p env w).1.1 (run_script p env w).1.2.
Proof.
  revert env w. induction p as [r | e | c args k IH]; intros env w; simpl.
  - apply effect_refl.
  - apply effect_refl.
  - pose proof (bound_effect c env w args) as Hb.
    destruct (bound c env w args) as [[env1 w1] v]. simpl in Hb.
    eapply effect_trans; [exact Hb | apply IH].
Qed.

(** ** Argument validation in the data operations *)

Ltac export_cases H :=
  repeat match type of H with
    | context [is_Ok ?x] => destruct x eqn:?; simpl in H
    end.

(** C3, as amended.  A data operation called with a number of arguments
    its closure refuses ([create], [getById], [del]: other than 2;
    [update]: other than 3; [list]: none; [query]: fewer than 2), or with
    an argument that does not export to the type it is read at, returns a
    soft failure carrying a message; the environment and the world are
    left as they were, so the store has not been called. *)
Theorem rejected_call_is_soft_failure (c : capability)
    (env : ExecutionEnvironment) (w : World) (args : list Value) :
  data_capability c = true ->
  rejected c args = true ->
  exists msg, bound c env w args = (env, w, failure msg).
Proof.
  intros Hdata Hrej.
  destruct c; try discriminate Hdata;
    unfold rejected, count_accepted, types_accepted in Hrej;
    unfold bound.
  - unfold create. destruct (length args =? 2)%nat; simpl in *; [|eauto].
    export_cases Hrej; try discriminate; eauto.
  - unfold list_. rewrite Nat.ltb_antisym.
    destruct (1 <=? length args)%nat; simpl in *; [|eauto].
    export_cases Hrej; try discriminate; eauto.
  - unfold getById. destruct (length args =? 2)%nat; simpl in *; [|eauto].
    export_cases Hrej; try discriminate; eauto.
  - unfold query. rewrite Nat.ltb_antisym.
    destruct (2 <=? length args)%nat; simpl in *; [|eauto].
    export_cases Hrej; try discriminate; eauto;
      destruct (ParseQuery _); eauto.
  - unfold update. destruct (length args =? 3)%nat; simpl in *; [|eauto].
    export_cases Hrej; try discriminate; eauto.
  - unfold del. destruct (length args =? 2)%nat; simpl in *; [|eauto].
    export_cases Hrej; try discriminate; eauto.
Qed.

(** ** Sanitizer failures inside a capability call *)

Lemma clean_all_Err (docs : list Doc) (e : error) :
  clean_all docs = Err e ->
  exists d, d ∈ docs /\ (clean d).2 = Some e.
Proof.
  induction docs as [|d rest IH]; simpl; [discriminate|].
  destruct (clean d) as [d' [e'|]] eqn:Hd.
  - intros [= <-]. exists d. rewrite Hd. split; [left | done].
  - destruct (clean_all rest) as [rest' | e'']; [discriminate|].
    intros [= <-]. destruct IH as (d0 & Hin & Hd0); [done|].
    exists d0. split; [by right | done].
Qed.

Lemma clean_all_refuses (docs : list Doc) (d : Doc) :
  d ∈ docs -> is_Some (clean d).2 -> exists e, clean_all docs = Err e.
Proof.
  induction docs as [|d0 rest IH]; intros Hin Hd.
  - by apply elem_of_nil in Hin.
  - simpl. destruct (clean d0) as [d0' [e0|]] eqn:Hd0; [eauto|].
    apply elem_of_cons in Hin as [-> | Hin].
    + rewrite Hd0 in Hd. simpl in Hd. by destruct Hd.
    + destruct (IH Hin Hd) as [e ->]. eauto.
Qed.

(** C1, as amended.  When the store answers a [create], [list], [getById],
    [query] or [update] call with a document the sanitizer refuses, the
    closure returns, as an ordinary value, a soft failure whose content is
    the sanitizer's message (behind the prefix "error cleaning doc: " in
    [list], [query] and [update]); nothing is thrown, and the script goes
    on with that value. *)
Theorem sanitizer_failure_is_soft (env : ExecutionEnvironment) (w w' : World)
    (c : capability) (args : list Value) (msg : string) :
  sanitizer_fails env w c args w' msg ->
  bound c env w args = (env, w', failure msg) /\
  (forall R (k : Value -> script Value R),
     run_script (Call c args k) env w = run_script (k (failure msg)) env w').
Proof.
  intros Hfail.
  assert (bound c env w args = (env, w', failure msg)) as Hb.
  { destruct Hfail; simpl.
    - unfold create, Argument, external. simpl.
      rewrite H, H0, H1. destruct (clean d) as [d' [e'|]]; simpl in *;
        congruence.
    - unfold getById, Argument, external. simpl.
      rewrite H, H0, H1. destruct (clean d) as [d' [e'|]]; simpl in *;
        congruence.
    - unfold update, Argument, external. simpl.
      rewrite H, H0, H1, H2. destruct (clean d) as [d' [e'|]]; simpl in *;
        congruence.
    - unfold list_, external.
      apply Nat.ltb_ge in H. rewrite H, H0, H1, H2, H3. reflexivity.
    - unfold query, external.
      apply Nat.ltb_ge in H. rewrite H, H0, H1, H2, H3, H4, H5. reflexivity. }
  split; [exact Hb|].
  intros R k. simpl. by rewrite Hb.
Qed.

(** ** [Execute] up to the construction of the run record *)

Lemma effect_fields env w env' w' :
  effect env w env' w' ->
  EnvAuth env' = EnvAuth env /\ Data env' = Data env /\
  RunID (CurrentRun env') = RunID (CurrentRun env) /\
  RunVersion (CurrentRun env') = RunVersion (CurrentRun env) /\
  Started (CurrentRun env') = Started (CurrentRun env) /\
  Completed (CurrentRun env') = Completed (CurrentRun env) /\
  Success (CurrentRun env') = Success (CurrentRun env).
Proof. intros (lines & evs & -> & _ & _). by repeat split. Qed.

(** C7.  When the source throws while it is loaded, or leaves no function
    named [handle], [Execute] returns that error at once.  No run record is
    constructed: the environment and the world are the ones top-level
    evaluation left, the identity, version, timestamps and success flag of
    [CurrentRun] are unchanged, no completion is started, and no call to
    the run-history store is made. *)
Theorem load_failure_leaves_no_run (env : ExecutionEnvironment) (w : World)
    (data : Payload) (err : error) :
  load_failure env w err ->
  returned (Execute env w data) = Some err /\
  spawned (Execute env w data) = None /\
  finish (Execute env w data) = ((load env w).1.1, (load env w).1.2) /\
  effect env w (finish (Execute env w data)).1 (finish (Execute env w data)).2 /\
  RunID (CurrentRun (finish (Execute env w data)).1) = RunID (CurrentRun env) /\
  Started (CurrentRun (finish (Execute env w data)).1) =
    Started (CurrentRun env).
Proof.
  unfold load_failure, load. intros Hload.
  pose proof (run_script_effect (RunString (Code (Data env))) env w) as Heff.
  assert (finish (Execute env w data) =
            ((run_script (RunString (Code (Data env))) env w).1.1,
             (run_script (RunString (Code (Data env))) env w).1.2) /\
          returned (Execute env w data) = Some err /\
          spawned (Execute env w data) = None) as (Hfin & Hret & Hsp).
  { unfold finish, Execute.
    destruct (run_script (RunString (Code (Data env))) env w)
      as [[env1 w1] [vm | e]]; simpl in *.
    - destruct Hload as [-> ->]. by simpl.
    - subst err. by simpl. }
  rewrite Hfin. simpl.
  destruct (effect_fields _ _ _ _ Heff) as (_ & _ & Hid & _ & Hst & _).
  by repeat split.
Qed.

(** C2, as amended.  When the source loads, [handle] is a function and the
    argument adapter fails, [Execute] returns the adapter's error behind
    the prefix "error preparing argument: " before any run record is
    constructed: the environment and the world are the ones top-level
    evaluation left, so [CurrentRun] keeps its identity and timestamps and
    receives no start marker, no completion is started and nothing is
    handed to the run-history store. *)
Theorem adapter_failure_precedes_run (env : ExecutionEnvironment) (w : World)
    (data : Payload) (vm : Runtime)
    (handler : Value -> list Value -> script Value Value) (e : error) :
  (load env w).2 = Ok vm ->
  AssertFunction (Get vm "handle") = Some handler ->
  prepareArguments data = Err e ->
  returned (Execute env w data) = Some ("error preparing argument: " +:+ e) /\
  spawned (Execute env w data) = None /\
  finish (Execute env w data) = ((load env w).1.1, (load env w).1.2) /\
  effect env w (finish (Execute env w data)).1 (finish (Execute env w data)).2 /\
  RunID (CurrentRun (finish (Execute env w data)).1) = RunID (CurrentRun env) /\
  Started (CurrentRun (finish (Execute env w data)).1) =
    Started (CurrentRun env).
Proof.
  unfold load. intros Hload Hhandle Hargs.
  pose proof (run_script_effect (RunString (Code (Data env))) env w) as Heff.
  assert (finish (Execute env w data) =
            ((run_script (RunString (Code (Data env))) env w).1.1,
             (run_script (RunString (Code (Data env))) env w).1.2) /\
          returned (Execute env w data) =
            Some ("error preparing argument: " +:+ e) /\
          spawned (Execute env w data) = None) as (Hfin & Hret & Hsp).
  { unfold finish, Execute.
    destruct (run_script (RunString (Code (Data env))) env w)
      as [[env1 w1] loaded]; simpl in *.
    subst loaded. rewrite Hhandle, Hargs. by simpl. }
  rewrite Hfin. simpl.
  destruct (effect_fields _ _ _ _ Heff) as (_ & _ & Hid & _ & Hst & _).
  by repeat split.
Qed.

(** ** The log of a completed run *)

Lemma Execute_spawned env w data err :
  spawned (Execute env w data) = Some err ->
  exists env1 run lines,
    Output run = [] /\
    Data env1 = Data env /\
    env_after (Execute env w data) =
      add_Output lines
        (set_CurrentRun (append_Output "Function started" run) env1) /\
    returned (Execute env w data) =
      match err with
      | Some e => Some ("error executing your function: " +:+ e)
      | None => None
      end.
Proof.
  unfold Execute.
  pose proof (run_script_effect (RunString (Code (Data env))) env w) as Hload.
  destruct (run_script (RunString (Code (Data env))) env w)
    as [[env1 w1] [vm | e]]; simpl in *; [|discriminate].
  destruct (AssertFunction (Get vm "handle")) as [handler|]; [|discriminate].
  destruct (prepareArguments data) as [args | e]; [|discriminate].
  destruct (NewObjectID (ext w1)) as [oid x1].
  destruct (time_Now x1) as [now x2].
  match goal with
  | |- context [run_script ?p ?e2 ?w2] =>
      pose proof (run_script_effect p e2 w2) as Hrun;
      destruct (run_script p e2 w2) as [[env3 w3] r]
  end.
  simpl in *. intros [= <-].
  destruct Hrun as (lines & evs & -> & _ & _).
  destruct (effect_fields _ _ _ _ Hload) as (_ & Hdata & _).
  eexists env1, _, lines. split; [|split; [exact Hdata|split; [reflexivity|]]].
  - reflexivity.
  - by destruct r.
Qed.

Lemma complete_spec err env w :
  Output (CurrentRun (complete err env w).1) =
    Output (CurrentRun env) ++
      "Function completed" :: match err with Some m => [m] | None => [] end /\
  Success (CurrentRun (complete err env w).1) =
    match err with None => true | Some _ => false end /\
  CallRan (ID (Data env)) (CurrentRun (complete err env w).1)
    ∈ calls (complete err env w).2.
Proof.
  unfold complete. destruct (time_Now (ext w)) as [now x].
  unfold external. simpl.
  destruct (Ran _ _ x) as [[e|] x']; destruct err as [msg|]; simpl;
    (split; [by rewrite <- ?app_assoc |]);
    (split; [reflexivity|]); set_solver.
Qed.

Lemma second_to_last {A} (l : list A) (a b : A) :
  (l ++ [a; b]) !! (length (l ++ [a; b]) - 2)%nat = Some a.
Proof.
  rewrite length_app. simpl.
  replace (length l + 2 - 2)%nat with (length l) by lia.
  rewrite lookup_app_r by lia. by rewrite Nat.sub_diag.
Qed.

(** C4.  Whenever [Execute] gets as far as constructing the run record and
    starting [complete], the record [complete] hands to the run-history
    store has a log that begins with "Function started"; if the handler
    threw, the log ends with "Function completed" followed by the message
    of the handler's error; if it returned, the log ends with "Function
    completed".  The success flag is set exactly when [Execute] returns no
    error. *)
Theorem completed_run_log (env : ExecutionEnvironment) (w : World)
    (data : Payload) (err : option error) :
  spawned (Execute env w data) = Some err ->
  let final := finish (Execute env w data) in
  let out := Output (CurrentRun final.1) in
  head out = Some "Function started" /\
  match err with
  | Some msg =>
      last out = Some msg /\
      out !! (length out - 2)%nat = Some "Function completed" /\
      returned (Execute env w data) =
        Some ("error executing your function: " +:+ msg)
  | None => last out = Some "Function completed"
  end /\
  (Success (CurrentRun final.1) = true <-> returned (Execute env w data) = None) /\
  (exists lines,
     out = "Function started" :: lines ++
           "Function completed" :: match err with Some m => [m] | None => [] end) /\
  CallRan (ID (Data env)) (CurrentRun final.1) ∈ calls final.2.
Proof.
  intros Hsp.
  destruct (Execute_spawned _ _ _ _ Hsp)
    as (env1 & run & lines & Hout & Hdata & Henv & Hret).
  simpl. unfold finish. rewrite Hsp.
  destruct (complete_spec err (env_after (Execute env w data))
              (world_after (Execute env w data))) as (Hlog & Hok & Hran).
  set (final := complete err _ _) in *.
  assert (Output (CurrentRun final.1) =
            "Function started" :: lines ++
            "Function completed" :: match err with Some m => [m] | None => [] end)
    as Hshape.
  { rewrite Hlog, Henv. simpl. rewrite Hout. simpl. reflexivity. }
  assert (Data (env_after (Execute env w data)) = Data env) as Hd.
  { rewrite Henv. simpl. exact Hdata. }
  rewrite Hd in Hran.
  split; [by rewrite Hshape|].
  split.
  { rewrite Hshape. destruct err as [msg|].
    - split; [|split; [|exact Hret]].
      + rewrite app_comm_cons, (assoc_L (++) _ ["Function completed"] [msg]).
        apply last_snoc.
      + rewrite app_comm_cons. apply second_to_last.
    - rewrite app_comm_cons. apply last_snoc. }
  split.
  { rewrite Hok, Hret. destruct err; split; done. }
  split; [by exists lines | exact Hran].
Qed.

End Properties.

(** * Further properties of the sandbox *)

Section Coverage.
Context `{host : Host}.

(** ** [clean] *)

Lemma clean_field_dom field msg (doc : Doc) :
  dom (clean_field field msg doc).1 = dom doc.
Proof.
  unfold clean_field. destruct (doc !! field) as [[]|] eqn:Hf; simpl; try done.
  apply dom_insert_lookup_L. by rewrite Hf.
Qed.

Lemma clean_inv (doc doc' : Doc) :
  clean doc = (doc', None) ->
  (forall k, k <> "id" -> k <> FieldAccountID -> doc' !! k = doc !! k) /\
  (forall f, f = "id" \/ f = FieldAccountID ->
     match doc !! f with
     | None => doc' !! f = None
     | Some v =>
         exists oid, v = AObjectID oid /\ doc' !! f = Some (AString (Hex oid))
     end).
Proof.
  unfold clean. intros Hclean.
  destruct (clean_field "id" _ doc) as [d1 [e1|]] eqn:H1; [done|].
  apply clean_field_inv in H1. apply clean_field_inv in Hclean.
  pose proof FieldAccountID_neq_id as Hne.
  split.
  - intros k Hid Hacc.
    destruct Hclean as [[_ ->] | [acc [_ ->]]];
      destruct H1 as [[_ ->] | [oid [_ ->]]];
      by rewrite ?lookup_insert_ne.
  - intros f [-> | ->].
    + destruct H1 as [[Hid ->] | [oid [Hid ->]]]; rewrite Hid;
        destruct Hclean as [[_ ->] | [acc [_ ->]]];
        rewrite ?(lookup_insert_ne _ FieldAccountID "id") by done;
        rewrite ?lookup_insert_eq; eauto.
    + destruct H1 as [[Hid ->] | [oid [Hid ->]]];
        rewrite ?(lookup_insert_ne _ "id" FieldAccountID) in Hclean by done;
        destruct Hclean as [[Hacc ->] | [acc [Hacc ->]]]; rewrite Hacc;
        rewrite ?lookup_insert_eq;
        rewrite ?(lookup_insert_ne _ "id" FieldAccountID) by done; eauto.
Qed.

(** X1.  When [clean] succeeds, each of [id] and [accountId] that was
    present held an [ObjectID] and now holds its hexadecimal string, an
    absent one is still absent, and every other field is as it was. *)
Theorem clean_success_converts (doc doc' : Doc) :
  clean doc = (doc', None) ->
  (forall k, k <> "id" -> k <> FieldAccountID -> doc' !! k = doc !! k) /\
  (forall f, f = "id" \/ f = FieldAccountID ->
     match doc !! f with
     | None => doc' !! f = None
     | Some v =>
         exists oid, v = AObjectID oid /\ doc' !! f = Some (AString (Hex oid))
     end).
Proof. exact (clean_inv doc doc'). Qed.

(** X2.  [clean] never adds or removes a field, whether it succeeds or
    fails: the map it leaves has the keys of the map it was given. *)
Theorem clean_keeps_keys (doc : Doc) : dom (clean doc).1 = dom doc.
Proof.
  unfold clean.
  pose proof (clean_field_dom "id" "unable to cast document id" doc) as H1.
  destruct (clean_field "id" _ doc) as [d1 [e1|]]; simpl in *; [done|].
  by rewrite clean_field_dom.
Qed.

(** X3.  [clean] succeeds exactly when each of [id] and [accountId] is
    absent or holds an [ObjectID]. *)
Theorem clean_succeeds_iff (doc : Doc) :
  (clean doc).2 = None <->
  castable (doc !! "id") = true /\ castable (doc !! FieldAccountID) = true.
Proof.
  pose proof FieldAccountID_neq_id as Hne.
  unfold clean, clean_field.
  destruct (doc !! "id") as [[]|] eqn:Hid; simpl;
    try (split; [discriminate | intros [? _]; discriminate]).
  - rewrite lookup_insert_ne by done.
    destruct (doc !! FieldAccountID) as [[]|]; simpl;
      split; try done; intros [_ ?]; done.
  - destruct (doc !! FieldAccountID) as [[]|]; simpl;
      split; try done; intros [_ ?]; done.
Qed.

(** X4.  [clean] works in place, field by field: when [id] holds an
    [ObjectID] but [accountId] holds something else, the call fails on
    [accountId] after [id] has already been replaced by its string. *)
Theorem clean_fails_after_converting_id (doc : Doc) (oid : ObjectID) :
  doc !! "id" = Some (AObjectID oid) ->
  castable (doc !! FieldAccountID) = false ->
  clean doc = (<["id" := AString (Hex oid)]> doc,
               Some "unable to cast document accountId").
Proof.
  intros Hid Hacc. pose proof FieldAccountID_neq_id as Hne.
  unfold clean, clean_field. rewrite Hid.
  rewrite lookup_insert_ne by done.
  destruct (doc !! FieldAccountID) as [[]|]; simpl in Hacc; done.
Qed.

(** ** The loop over a page of results *)

Lemma clean_all_Forall2 (docs docs' : list Doc) :
  clean_all docs = Ok docs' <->
  Forall2 (fun d d' => clean d = (d', None)) docs docs'.
Proof.
  revert docs'. induction docs as [|d rest IH]; intros docs'; simpl.
  - split.
    + intros [= <-]. constructor.
    + intros Hall. by inversion Hall.
  - destruct (clean d) as [d1 [e|]] eqn:Hd.
    + split; [discriminate|]. intros Hall. inversion Hall; congruence.
    + destruct (clean_all rest) as [rest'|e] eqn:Hrest.
      * split.
        -- intros [= <-]. constructor; [done|]. by apply IH.
        -- intros Hall. inversion Hall as [|? d2 ? rest2 Hd2 Hrest2]; subst.
           apply IH in Hrest2. congruence.
      * split; [discriminate|].
        intros Hall. inversion Hall as [|? d2 ? rest2 Hd2 Hrest2]; subst.
        apply IH in Hrest2. discriminate.
Qed.

(** X5.  The loop over a page succeeds exactly when [clean] succeeds on
    every document of the page, and then returns the cleaned documents in
    the same order and number. *)
Theorem clean_all_Ok_iff (docs docs' : list Doc) :
  clean_all docs = Ok docs' <->
  Forall2 (fun d d' => clean d = (d', None)) docs docs'.
Proof. exact (clean_all_Forall2 docs docs'). Qed.

(** X6.  The loop stops at the first document [clean] refuses and reports
    that document's error: the documents before it were all accepted. *)
Theorem clean_all_first_error (docs : list Doc) (e : error) :
  clean_all docs = Err e <->
  exists before d after,
    docs = before ++ d :: after /\
    Forall (fun d0 => (clean d0).2 = None) before /\
    (clean d).2 = Some e.
Proof.
  split.
  - induction docs as [|d rest IH]; simpl; [discriminate|].
    destruct (clean d) as [d1 [e1|]] eqn:Hd.
    + intros [= <-]. exists [], d, rest. rewrite Hd. by repeat split.
    + destruct (clean_all rest) as [rest'|e'] eqn:Hrest; [discriminate|].
      intros [= <-]. destruct IH as (before & d0 & after & -> & Hb & Hd0);
        [done|].
      exists (d :: before), d0, after. split; [done|]. split; [|done].
      constructor; [by rewrite Hd | done].
  - intros (before & d & after & -> & Hb & Hd).
    induction Hb as [|d0 before Hd0 Hb IH]; simpl.
    + destruct (clean d) as [d1 [e1|]]; simpl in Hd; congruence.
    + destruct (clean d0) as [d1 [e1|]]; simpl in Hd0; [discriminate|].
      by rewrite IH.
Qed.

(** ** What the capabilities hand to the script *)

Lemma clean_sanitized (d d' : Doc) : clean d = (d', None) -> sanitized d'.
Proof.
  intros Hclean. destruct (clean_inv _ _ Hclean) as [_ Hf].
  split.
  - specialize (Hf "id" (or_introl eq_refl)).
    destruct (d !! "id"); [destruct Hf as (oid & _ & ->) | rewrite Hf]; done.
  - specialize (Hf FieldAccountID (or_intror eq_refl)).
    destruct (d !! FieldAccountID);
      [destruct Hf as (oid & _ & ->) | rewrite Hf]; done.
Qed.

Lemma clean_all_sanitized (docs docs' : list Doc) :
  clean_all docs = Ok docs' -> Forall sanitized docs'.
Proof.
  intros Hall. apply clean_all_Forall2 in Hall.
  induction Hall; constructor; eauto using clean_sanitized.
Qed.

Ltac each_path :=
  repeat match goal with
    | |- context [match ?x with _ => _ end] => destruct x eqn:?
    end.

Ltac returns_result :=
  eexists; split; [reflexivity | simpl; eauto using clean_sanitized,
                                   clean_all_sanitized].

(** X7.  Every capability other than [log] returns a [Result] value, and
    no document inside it, alone or in a page, carries an [ObjectID] under
    [id] or [accountId]: what reaches the script has been sanitized. *)
Theorem capabilities_return_sanitized (c : capability)
    (env : ExecutionEnvironment) (w : World) (args : list Value) :
  c <> cap_log ->
  exists r : Result,
    (bound c env w args).2 = ToValue (GoResult r) /\ script_safe (Content r).
Proof.
  intros Hc. destruct c; [done|..]; simpl.
  - unfold create. each_path; returns_result.
  - unfold list_. each_path; returns_result.
  - unfold getById. each_path; returns_result.
  - unfold query. each_path; returns_result.
  - unfold update. each_path; returns_result.
  - unfold del. each_path; returns_result.
  - unfold send. each_path; returns_result.
Qed.

(** ** What a data operation touches *)

Ltac no_call_or_store_call :=
  simpl; split; [reflexivity|];
  first [ by left
        | right; eexists; split;
          [ | match goal with
              | H : external _ _ _ = _ |- _ =>
                  apply external_inv in H as [H _]; exact H
              end ]; reflexivity ].

(** X8.  A data operation leaves the environment as it was, and makes at
    most one external call, which is a call to the document store. *)
Theorem data_capability_footprint (c : capability)
    (env : ExecutionEnvironment) (w : World) (args : list Value) :
  data_capability c = true ->
  (bound c env w args).1.1 = env /\
  (calls (bound c env w args).1.2 = calls w \/
   exists e, is_store_call e = true /\
             calls (bound c env w args).1.2 = calls w ++ [e]).
Proof.
  intros Hc. destruct c; try discriminate Hc; simpl.
  - unfold create. each_path; no_call_or_store_call.
  - unfold list_. each_path; no_call_or_store_call.
  - unfold getById. each_path; no_call_or_store_call.
  - unfold query. each_path; no_call_or_store_call.
  - unfold update. each_path; no_call_or_store_call.
  - unfold del. each_path; no_call_or_store_call.
Qed.

Ltac success_after_call Hdist Hok :=
  simpl in Hok; simpl;
  first [ exfalso; exact (Hdist _ _ Hok)
        | match goal with
          | H : external _ _ _ = _ |- _ =>
              apply external_inv in H as [H _];
              eexists; split; [| exact H];
              first [ left; reflexivity | right; eexists; reflexivity ]
          end ].

(** X9.  On an interpreter that tells a failure from a success, a data
    operation or [send] that returns [ok: true] has made exactly one
    external call: it never reports success without the store (or the
    bus) having been asked. *)
Theorem success_needs_the_call (c : capability)
    (env : ExecutionEnvironment) (w : World) (args : list Value)
    (content : ResultContent) :
  (forall msg c0, failure msg <> success c0) ->
  c <> cap_log ->
  (bound c env w args).2 = success content ->
  exists e, (is_store_call e = true \/ exists m, e = CallPublish m) /\
            calls (bound c env w args).1.2 = calls w ++ [e].
Proof.
  intros Hdist Hc Hok. destruct c; [done|..]; simpl in *.
  - unfold create in *. revert Hok. each_path; intros Hok;
      success_after_call Hdist Hok.
  - unfold list_ in *. revert Hok. each_path; intros Hok;
      success_after_call Hdist Hok.
  - unfold getById in *. revert Hok. each_path; intros Hok;
      success_after_call Hdist Hok.
  - unfold query in *. revert Hok. each_path; intros Hok;
      success_after_call Hdist Hok.
  - unfold update in *. revert Hok. each_path; intros Hok;
      success_after_call Hdist Hok.
  - unfold del in *. revert Hok. each_path; intros Hok;
      success_after_call Hdist Hok.
  - unfold send in *. revert Hok. each_path; intros Hok;
      success_after_call Hdist Hok.
Qed.

(** ** [send] *)

(** X10.  [send] reaches the publisher exactly when it has three
    arguments, the first and third export to strings and the second
    serializes: then it publishes one envelope; otherwise it returns a
    soft failure and the world is as it was. *)
Theorem send_publishes_iff_ready (env : ExecutionEnvironment) (w : World)
    (args : list Value) :
  if send_ready args
  then exists typ channel b,
         ExportTo_string (Argument args 0) = Ok typ /\
         ExportTo_string (Argument args 2) = Ok channel /\
         json_Marshal (Export (Argument args 1)) = Ok b /\
         calls (send env w args).1.2 =
           calls w ++
           [CallPublish {| SID := Hex (ID (Data env)); Type_ := typ;
                           Data_ := b; Channel := channel;
                           Token := ReconstructToken (EnvAuth env) |}]
  else exists text, send env w args = (env, w, failure text).
Proof.
  unfold send_ready, send.
  destruct (length args =? 3)%nat; simpl; [|eauto].
  destruct (ExportTo_string (Argument args 0)) as [typ|]; simpl; [|eauto].
  destruct (ExportTo_string (Argument args 2)) as [channel|]; simpl; [|eauto].
  destruct (json_Marshal _) as [b|]; simpl; [|eauto].
  exists typ, channel, b. repeat split.
  unfold external. by destruct (Publish _ (ext w)) as [[e|] x].
Qed.

(** ** The optional [params] argument *)

(** X11.  For [list] a [params] argument that is null or undefined counts
    as missing, and arguments after it are never read: the call behaves as
    [list(col)]. *)
Theorem list_null_params_as_omitted (env : ExecutionEnvironment) (w : World)
    (col v : Value) (rest : list Value) :
  IsNull v = true \/ IsUndefined v = true ->
  list_ env w (col :: v :: rest) = list_ env w [col].
Proof.
  intros Hv. unfold list_, optional_params, Argument. simpl.
  assert (negb (IsNull v) && negb (IsUndefined v) = false) as ->.
  { destruct Hv as [-> | ->]; [done|]. by rewrite andb_false_r. }
  reflexivity.
Qed.

(** X12.  The same for [query]: with a null or undefined third argument
    the call behaves as [query(col, clauses)]. *)
Theorem query_null_params_as_omitted (env : ExecutionEnvironment) (w : World)
    (col clauses v : Value) (rest : list Value) :
  IsNull v = true \/ IsUndefined v = true ->
  query env w (col :: clauses :: v :: rest) = query env w [col; clauses].
Proof.
  intros Hv. unfold query, optional_params, Argument. simpl.
  assert (negb (IsNull v) && negb (IsUndefined v) = false) as ->.
  { destruct Hv as [-> | ->]; [done|]. by rewrite andb_false_r. }
  reflexivity.
Qed.

(** X13.  [query] asks the store only with a filter the query parser
    produced from the exported clauses, and with successfully exported
    collection and parameters; in every other case the world is left as it
    was. *)
Theorem query_store_call (env env' : ExecutionEnvironment) (w w' : World)
    (args : list Value) (v : Value) :
  query env w args = (env', w', v) ->
  w' = w \/
  exists col clauses filter params,
    ExportTo_string (Argument args 0) = Ok col /\
    ExportTo_clauses (Argument args 1) = Ok clauses /\
    ParseQuery clauses = Ok filter /\
    optional_params args 2 = Ok params /\
    calls w' = calls w ++ [CallQuery col filter params] /\
    ext w' = (Base_Query (EnvAuth env) col filter params (ext w)).2.
Proof.
  unfold query.
  destruct (length args <? 2)%nat; [intros [= _ <- _]; by left|].
  destruct (ExportTo_string _) as [col|] eqn:Hcol;
    [|intros [= _ <- _]; by left].
  destruct (ExportTo_clauses _) as [clauses|] eqn:Hclauses;
    [|intros [= _ <- _]; by left].
  destruct (ParseQuery clauses) as [filter|] eqn:Hfilter;
    [|intros [= _ <- _]; by left].
  destruct (optional_params args 2) as [params|] eqn:Hparams;
    [|intros [= _ <- _]; by left].
  destruct (external _ _ w) as [r w1] eqn:Hext.
  apply external_inv in Hext as [Hcalls Hop].
  intros Hq. right. exists col, clauses, filter, params.
  assert (w' = w1) as ->.
  { revert Hq. each_path; by intros [= _ <- _]. }
  repeat split; try done. by rewrite Hop.
Qed.

(** ** The argument adapter, remaining paths *)

(** X14.  A web request whose [Content-Type] is
    [application/x-www-form-urlencoded] and whose form parses yields three
    arguments: the form, the URL query and the headers. *)
Theorem prepareArguments_form (r : Request) (form : Values) :
  Header_Get (Header r) "Content-Type" = "application/x-www-form-urlencoded" ->
  ParseForm r = Ok form ->
  prepareArguments (WebRequest r) =
    Ok [ToValue (GoValues form); ToValue (GoValues (URL_Query (URL r)));
        ToValue (GoValues (Header r))].
Proof.
  intros Hct Hform. unfold prepareArguments. by rewrite Hct, Hform.
Qed.

(** X15.  Whatever the body and the content type, the arguments built
    for a web request end with the URL query and the headers, and at most
    one body argument comes before them. *)
Theorem prepareArguments_web_shape (r : Request) (args : list Value) :
  prepareArguments (WebRequest r) = Ok args ->
  exists body,
    args = body ++ [ToValue (GoValues (URL_Query (URL r)));
                    ToValue (GoValues (Header r))] /\
    (length body <= 1)%nat /\
    (length body = 1%nat <->
       Header_Get (Header r) "Content-Type" = "application/json" \/
       Header_Get (Header r) "Content-Type" =
         "application/x-www-form-urlencoded").
Proof.
  unfold prepareArguments.
  destruct (String.eqb _ "application/json") eqn:Hjson.
  - apply String.eqb_eq in Hjson.
    destruct (json_Decode (Body r)) as [v|]; [|discriminate].
    intros [= <-]. exists [ToValue (GoAny v)]. simpl. split; [done|].
    split; [lia|]. split; eauto.
  - destruct (String.eqb _ "application/x-www-form-urlencoded") eqn:Hform.
    + apply String.eqb_eq in Hform.
      destruct (ParseForm r) as [f|]; [|discriminate].
      intros [= <-]. exists [ToValue (GoValues f)]. simpl. split; [done|].
      split; [lia|]. split; eauto.
    + apply String.eqb_neq in Hjson, Hform.
      intros [= <-]. exists []. simpl. split; [done|]. split; [lia|].
      split; [discriminate | intros [? | ?]; done].
Qed.

(** X16.  A web request without a [Content-Type] header, or with an empty
    list of values under it, yields the URL query and the headers only;
    its body is never decoded, so it cannot make the adapter fail. *)
Theorem prepareArguments_no_content_type (r : Request) :
  Header r !! "Content-Type" = None \/ Header r !! "Content-Type" = Some [] ->
  prepareArguments (WebRequest r) =
    Ok [ToValue (GoValues (URL_Query (URL r))); ToValue (GoValues (Header r))].
Proof.
  intros Hct. unfold prepareArguments, Header_Get.
  by destruct Hct as [-> | ->].
Qed.

(** ** What a script can and cannot change *)

Lemma ran_count_app (a b : list Event) :
  ran_count (a ++ b) = (ran_count a + ran_count b)%nat.
Proof. unfold ran_count. by rewrite List.filter_app, length_app. Qed.

Lemma ran_count_none (evs : list Event) :
  Forall (fun e => is_ran_call e = false) evs -> ran_count evs = 0%nat.
Proof.
  unfold ran_count. induction 1 as [|e evs He _ IH]; simpl; [done|].
  by rewrite He.
Qed.

(** X18.  Whatever a script does with the capabilities, it can only add
    lines at the end of the current run's log.  It cannot change [Auth] or
    [Data], the identifier, version, timestamps or success flag of the
    record, or the lines already logged, and it never reaches the
    run-history store. *)
Theorem script_only_appends {R} (p : script Value R)
    (env : ExecutionEnvironment) (w : World) :
  let env' := (run_script p env w).1.1 in
  let w' := (run_script p env w).1.2 in
  EnvAuth env' = EnvAuth env /\ Data env' = Data env /\
  RunID (CurrentRun env') = RunID (CurrentRun env) /\
  RunVersion (CurrentRun env') = RunVersion (CurrentRun env) /\
  Started (CurrentRun env') = Started (CurrentRun env) /\
  Completed (CurrentRun env') = Completed (CurrentRun env) /\
  Success (CurrentRun env') = Success (CurrentRun env) /\
  Output (CurrentRun env) `prefix_of` Output (CurrentRun env') /\
  calls w `prefix_of` calls w' /\
  ran_count (calls w') = ran_count (calls w).
Proof.
  simpl. pose proof (run_script_effect p env w) as Heff.
  destruct (effect_fields _ _ _ _ Heff) as (? & ? & ? & ? & ? & ? & ?).
  destruct Heff as (lines & evs & Henv & Hcalls & Hnone).
  repeat (split; [done|]).
  split; [rewrite Henv; by exists lines|].
  split; [rewrite Hcalls; by exists evs|].
  rewrite Hcalls, ran_count_app, (ran_count_none _ Hnone). lia.
Qed.

(** ** [complete] *)

Lemma complete_inv (err : option error)
    (env : ExecutionEnvironment) (w : World) :
  let env' := (complete err env w).1 in
  let run := CurrentRun env' in
  EnvAuth env' = EnvAuth env /\ Data env' = Data env /\
  RunID run = RunID (CurrentRun env) /\
  RunVersion run = RunVersion (CurrentRun env) /\
  Started run = Started (CurrentRun env) /\
  Completed run = (time_Now (ext w)).1 /\
  calls (complete err env w).2 =
    calls w ++ CallRan (ID (Data env)) run ::
      match (Ran (ID (Data env)) run (time_Now (ext w)).2).1 with
      | Some e => [LogPrintln ("error logging function complete:  " +:+ e)]
      | None => []
      end.
Proof.
  unfold complete. destruct (time_Now (ext w)) as [now x].
  unfold external. simpl.
  destruct err as [msg|]; simpl;
    destruct (Ran _ _ x) as [[e|] x'] eqn:HRan; simpl; rewrite ?HRan; simpl;
    repeat (split; [reflexivity|]); by rewrite <- ?app_assoc.
Qed.


(** ** [Execute], end to end *)

Lemma Execute_calls env w data :
  exists evs,
    calls (world_after (Execute env w data)) = calls w ++ evs /\
    Forall (fun e => is_ran_call e = false) evs.
Proof.
  unfold Execute.
  pose proof (run_script_effect (RunString (Code (Data env))) env w) as Hload.
  destruct (run_script (RunString (Code (Data env))) env w)
    as [[env1 w1] [vm | e]]; simpl in *;
    destruct Hload as (l1 & e1 & _ & Hc1 & Hn1); [|by exists e1].
  destruct (AssertFunction (Get vm "handle")) as [handler|]; [|by exists e1].
  destruct (prepareArguments data) as [args | e]; [|by exists e1].
  destruct (NewObjectID (ext w1)) as [oid x1].
  destruct (time_Now x1) as [now x2].
  match goal with
  | |- context [run_script ?p ?e2 ?w2] =>
      pose proof (run_script_effect p e2 w2) as Hrun;
      destruct (run_script p e2 w2) as [[env3 w3] r]
  end.
  simpl in *. destruct Hrun as (l2 & e2 & _ & Hc2 & Hn2).
  exists (e1 ++ e2). rewrite Hc2, Hc1, app_assoc. split; [done|].
  by apply Forall_app.
Qed.

(** X20.  [Execute] returns no error exactly when the handler was invoked
    and returned normally; in particular a nil result always comes with a
    started completion, and every early exit returns an error. *)
Theorem Execute_nil_iff_handler_returned (env : ExecutionEnvironment)
    (w : World) (data : Payload) :
  returned (Execute env w data) = None <->
  spawned (Execute env w data) = Some None.
Proof.
  unfold Execute.
  destruct (run_script (RunString (Code (Data env))) env w)
    as [[env1 w1] [vm | e]]; simpl; [|done].
  destruct (AssertFunction (Get vm "handle")) as [handler|]; [|done].
  destruct (prepareArguments data) as [args | e]; [|done].
  destruct (NewObjectID (ext w1)) as [oid x1].
  destruct (time_Now x1) as [now x2].
  match goal with
  | |- context [run_script ?p ?e2 ?w2] =>
      destruct (run_script p e2 w2) as [[env3 w3] [v | e]]
  end; simpl; done.
Qed.

(** X21.  One call of [Execute], with its completion run to the end,
    hands the run-history store one record if the handler was invoked and
    none otherwise, whatever the script does. *)
Theorem Execute_persists_at_most_once (env : ExecutionEnvironment)
    (w : World) (data : Payload) :
  ran_count (calls (finish (Execute env w data)).2) =
    (ran_count (calls w) +
     match spawned (Execute env w data) with
     | Some _ => 1
     | None => 0
     end)%nat.
Proof.
  destruct (Execute_calls env w data) as (evs & Hcalls & Hnone).
  unfold finish. destruct (spawned (Execute env w data)) as [err|]; simpl.
  - destruct (complete_inv err (env_after (Execute env w data))
                (world_after (Execute env w data)))
      as (_ & _ & _ & _ & _ & _ & Hc).
    rewrite Hc, Hcalls, !ran_count_app, (ran_count_none _ Hnone).
    unfold ran_count at 2. simpl.
    destruct (Ran _ _ _).1; simpl; lia.
  - rewrite Hcalls, ran_count_app, (ran_count_none _ Hnone). lia.
Qed.

(** X22.  When the handler is invoked, the record that is persisted has
    the version of the function, the identifier and the start time
    generated just before the call, and the environment still has its
    [Auth] and [Data]: nothing the handler does can alter them. *)
Theorem run_record_identity (env : ExecutionEnvironment) (w : World)
    (data : Payload) (err : option error) :
  spawned (Execute env w data) = Some err ->
  let final := (finish (Execute env w data)).1 in
  let x := ext (load env w).1.2 in
  EnvAuth final = EnvAuth env /\
  Data final = Data env /\
  RunVersion (CurrentRun final) = Version (Data env) /\
  RunID (CurrentRun final) = Hex (NewObjectID x).1 /\
  Started (CurrentRun final) = (time_Now (NewObjectID x).2).1.
Proof.
  intros Hsp. simpl. unfold finish. rewrite Hsp.
  destruct (complete_inv err (env_after (Execute env w data))
              (world_after (Execute env w data)))
    as (-> & -> & -> & -> & -> & _).
  revert Hsp. unfold load, Execute.
  pose proof (run_script_effect (RunString (Code (Data env))) env w) as Hload.
  destruct (run_script (RunString (Code (Data env))) env w)
    as [[env1 w1] [vm | e]]; simpl in *; [|discriminate].
  destruct (effect_fields _ _ _ _ Hload) as (Hauth & Hdata & _).
  destruct (AssertFunction (Get vm "handle")) as [handler|]; [|discriminate].
  destruct (prepareArguments data) as [args | e]; [|discriminate].
  destruct (NewObjectID (ext w1)) as [oid x1]. simpl.
  destruct (time_Now x1) as [now x2].
  match goal with
  | |- context [run_script ?p ?e2 ?w2] =>
      pose proof (run_script_effect p e2 w2) as Hrun;
      destruct (run_script p e2 w2) as [[env3 w3] r]
  end.
  simpl in *. intros _.
  destruct (effect_fields _ _ _ _ Hrun) as (-> & -> & -> & -> & -> & _).
  simpl. rewrite Hdata, Hauth. by repeat split.
Qed.

(** ** Independence from what [CurrentRun] held before *)

Ltac same_on_both :=
  exists []; eexists; eexists; rewrite !add_Output_nil; split; reflexivity.

Lemma bound_any_run c env w args (r : ExecHistory) :
  exists lines w' v,
    bound c env w args = (add_Output lines env, w', v) /\
    bound c (set_CurrentRun r env) w args =
      (add_Output lines (set_CurrentRun r env), w', v).
Proof.
  destruct c; simpl.
  - unfold log. destruct (length args =? 0)%nat.
    + same_on_both.
    + exists [Sprint (map Export args)]. eexists. eexists.
      split; reflexivity.
  - unfold create. simpl. each_path; same_on_both.
  - unfold list_. simpl. each_path; same_on_both.
  - unfold getById. simpl. each_path; same_on_both.
  - unfold query. simpl. each_path; same_on_both.
  - unfold update. simpl. each_path; same_on_both.
  - unfold del. simpl. each_path; same_on_both.
  - unfold send. simpl. each_path; same_on_both.
Qed.

Lemma run_script_any_run {R} (p : script Value R) env w (r : ExecHistory) :
  exists lines w' res,
    run_script p env w = (add_Output lines env, w', res) /\
    run_script p (set_CurrentRun r env) w =
      (add_Output lines (set_CurrentRun r env), w', res).
Proof.
  revert env w r. induction p as [x | e | c args k IH]; intros env w r; simpl.
  - exists [], w, (Ok x). by rewrite !add_Output_nil.
  - exists [], w, (Err e). by rewrite !add_Output_nil.
  - destruct (bound_any_run c env w args r) as (l1 & w1 & v & -> & ->).
    destruct (IH v (add_Output l1 env) w1
                (CurrentRun (add_Output l1 (set_CurrentRun r env))))
      as (l2 & w2 & res & H1 & H2).
    exists (l1 ++ l2), w2, res. rewrite <- !add_Output_app. split; [exact H1|].
    exact H2.
Qed.

(** X23.  A run owes nothing to what [CurrentRun] held when [Execute] was
    called: with any other record in its place [Execute] returns the same
    error, makes the same external calls and, whenever the handler is
    invoked, builds and persists the same record. *)
Theorem Execute_ignores_previous_run (env : ExecutionEnvironment) (w : World)
    (data : Payload) (r : ExecHistory) :
  let o := Execute env w data in
  let o' := Execute (set_CurrentRun r env) w data in
  returned o' = returned o /\
  spawned o' = spawned o /\
  (finish o').2 = (finish o).2 /\
  (spawned o <> None -> (finish o').1 = (finish o).1).
Proof.
  simpl. unfold finish, Execute. simpl.
  destruct (run_script_any_run (RunString (Code (Data env))) env w r)
    as (l & w1 & res & -> & ->).
  destruct res as [vm | e]; simpl; [|done].
  destruct (AssertFunction (Get vm "handle")) as [handler|]; simpl; [|done].
  destruct (prepareArguments data) as [args | e]; simpl; [|done].
  destruct (NewObjectID (ext w1)) as [oid x1].
  destruct (time_Now x1) as [now x2].
  unfold add_Output, set_CurrentRun. simpl.
  match goal with
  | |- context [run_script ?p ?e2 ?w2] =>
      destruct (run_script p e2 w2) as [[env3 w3] res]
  end.
  simpl. done.
Qed.

End Coverage.

(** * Runs on the sample host *)

#[local] Existing Instance Sample.host.

Import Sample.

(** *** C9 *)



(** *** C5 *)

Lemma prepareArguments_web_witness :
  prepareArguments (WebRequest (json_request "7")) =
    Ok [num 7; VGo (GoValues {["q" := ["page=2"]]});
        VGo (GoValues {["Content-Type" := ["application/json"]]})] /\
  prepareArguments (WebRequest text_request) =
    Ok [VGo (GoValues ∅); VGo (GoValues {["Content-Type" := ["text/plain"]]})].
Proof.
  split.
  - exact (proj1 (prepareArguments_web (json_request "7")) (ANumber 7)
             eq_refl eq_refl).
  - refine (proj2 (prepareArguments_web text_request) _ _);
      vm_compute; discriminate.
Defined.

(** *** C8 *)

Lemma send_publishes_envelope_witness :
  let env := env_of src_send in
  let w := world_with stamping [] in
  let down := {| ext := bus_down (ext w); calls := [] |} in
  send env w [str "notify"; num 1; str "room1"] =
    (env, {| ext := ext w; calls := [CallPublish (envelope "1")] |},
     VGo (GoResult {| OK := true; Content := CNil |})) /\
  send env down [str "notify"; num 1; str "room1"] =
    (env, {| ext := ext down; calls := [CallPublish (envelope "1")] |},
     soft "error publishing your message: connection refused") /\
  send env w [str "notify"; obj milk; str "room1"] =
    (env, w, soft "error converting your data: json: unsupported type").
Proof.
  intros env w down. split; [|split].
  - exact (send_publishes_envelope env w (str "notify") (num 1) (str "room1")
             "notify" "room1" eq_refl eq_refl).
  - exact (send_publishes_envelope env down (str "notify") (num 1)
             (str "room1") "notify" "room1" eq_refl eq_refl).
  - exact (send_publishes_envelope env w (str "notify") (obj milk)
             (str "room1") "notify" "room1" eq_refl eq_refl).
Defined.

(** *** C1 *)

Lemma sanitizer_failure_is_soft_witness :
  let env := env_of src_create in
  let w := world_with stringly [] in
  let pages := world_with stamping [milk_clean] in
  (clean milk_clean).2 = Some "unable to cast document id" /\
  create env w [str "todos"; obj milk] =
    (env, {| ext := ext w; calls := [CallAdd "todos" milk] |},
     soft "unable to cast document id") /\
  list_ env pages [str "todos"] =
    (env, {| ext := ext pages; calls := [CallList "todos" tt] |},
     soft "error cleaning doc: unable to cast document id").
Proof.
  intros env w pages. split; [vm_compute; reflexivity|]. split.
  - refine (proj1 (sanitizer_failure_is_soft env w _ cap_create _ _
                     (fails_in_create env w (str "todos") (obj milk) "todos"
                        milk milk_clean (ext w)
                        "unable to cast document id" _ _ _ _)));
      vm_compute; reflexivity.
  - refine (proj1 (sanitizer_failure_is_soft env pages _ cap_list _ _
                     (fails_in_list env pages [str "todos"] "todos" tt
                        {| Page := 1; Size := 25; Total := 1;
                           Results := [milk_clean] |}
                        (ext pages) "unable to cast document id"
                        _ _ _ _ _)));
      vm_compute; first [reflexivity | lia].
Defined.

(** Scenario E on the sample host: the store answers [create] with a
    document whose identifier is not an [ObjectID].  The sanitizer fails,
    the call hands the script a soft failure, the handler runs to its end,
    [Execute] returns no error and the run is recorded as a success. *)
Lemma sanitizer_failure_not_thrown :
  let env := env_of src_create in
  let w := world_with stringly [] in
  let o := Execute env w (Topic (GoAny (AMap milk))) in
  (clean milk_clean).2 = Some "unable to cast document id" /\
  (create env w [str "todos"; obj milk]).2 =
    soft "unable to cast document id" /\
  calls (world_after o) = [CallAdd "todos" milk] /\
  spawned o = Some None /\
  returned o = None /\
  Success (CurrentRun (finish o).1) = true.
Proof. intros env w o. repeat apply conj; reflexivity. Qed.

(** *** C2 *)

Lemma adapter_failure_precedes_run_witness :
  let env := env_of src_create in
  let w := world_with stamping [] in
  let data := WebRequest (json_request "{oops") in
  prepareArguments data = Err "invalid character" /\
  returned (Execute env w data) =
    Some "error preparing argument: invalid character" /\
  spawned (Execute env w data) = None /\
  finish (Execute env w data) = (env, w).
Proof.
  intros env w data.
  pose proof (adapter_failure_precedes_run env w data
                {["handle" := VFunction "create_todo"]} handle_create
                "invalid character" eq_refl eq_refl eq_refl)
    as (Hret & Hsp & Hfin & _).
  split; [reflexivity|]. split; [exact Hret|]. split; [exact Hsp|].
  exact Hfin.
Defined.

(** A web request with a JSON content type and a malformed body: [Execute]
    fails in the argument adapter, and the run record has not been
    constructed; its log is empty, not the start marker. *)
Lemma adapter_failure_leaves_no_start_marker :
  let env := env_of src_create in
  let w := world_with stamping [] in
  let o := Execute env w (WebRequest (json_request "{oops")) in
  returned o = Some "error preparing argument: invalid character" /\
  CurrentRun (env_after o) = ExecHistory_zero /\
  Output (CurrentRun (env_after o)) <> ["Function started"].
Proof.
  intros env w o. repeat apply conj; first [reflexivity | discriminate].
Qed.

(** *** C3 *)

Lemma rejected_call_is_soft_failure_witness :
  let env := env_of src_create in
  let w := world_with stamping [] in
  (exists msg, create env w [str "todos"] = (env, w, failure msg)) /\
  (exists msg, del env w [VNull; str "1"] = (env, w, failure msg)) /\
  (exists msg, query env w [str "todos"; VGo (GoAny (ASlice [])); num 5] =
                 (env, w, failure msg)).
Proof.
  intros env w. split; [|split].
  - exact (rejected_call_is_soft_failure cap_create env w [str "todos"]
             eq_refl eq_refl).
  - exact (rejected_call_is_soft_failure cap_del env w [VNull; str "1"]
             eq_refl eq_refl).
  - exact (rejected_call_is_soft_failure cap_query env w
             [str "todos"; VGo (GoAny (ASlice [])); num 5] eq_refl eq_refl).
Defined.

(** [list] called with three arguments, one more than the table of data
    operations allows: the closure calls the store and returns the page. *)
Lemma list_ignores_extra_arguments :
  let env := env_of src_create in
  let w := world_with stamping [milk_stored] in
  let r := list_ env w [str "todos"; VNull; num 5] in
  spec_arity cap_list 3 = false /\
  r.2 = VGo (GoResult
               {| OK := true;
                  Content := CPaged {| Page := 1; Size := 25; Total := 1;
                                       Results := [milk_clean] |} |}) /\
  calls r.1.2 = [CallList "todos" tt] /\
  forallb is_store_call (calls r.1.2) = true.
Proof. intros env w r. repeat apply conj; reflexivity. Qed.

(** *** C4 *)

Lemma completed_run_log_witness :
  let env := env_of src_throw in
  let w := world_with stamping [] in
  let failed := Execute env w (Topic (GoAny (ANumber 4))) in
  let passed := Execute (env_of src_create) w (Topic (GoAny (AMap milk))) in
  spawned failed = Some (Some "Error: boom") /\
  Output (CurrentRun (finish failed).1) =
    ["Function started"; "working on 4"; "Function completed"; "Error: boom"] /\
  last (Output (CurrentRun (finish failed).1)) = Some "Error: boom" /\
  (Success (CurrentRun (finish failed).1) = true <-> returned failed = None) /\
  spawned passed = Some None /\
  last (Output (CurrentRun (finish passed).1)) = Some "Function completed" /\
  (Success (CurrentRun (finish passed).1) = true <-> returned passed = None).
Proof.
  intros env w failed passed.
  pose proof (completed_run_log env w (Topic (GoAny (ANumber 4)))
                (Some "Error: boom") eq_refl)
    as (_ & (Hlast & _ & _) & Hok & _ & _).
  pose proof (completed_run_log (env_of src_create) w
                (Topic (GoAny (AMap milk))) None eq_refl)
    as (_ & Hlast' & Hok' & _ & _).
  split; [reflexivity|]. split; [vm_compute; reflexivity|].
  split; [exact Hlast|]. split; [exact Hok|].
  split; [reflexivity|]. split; [exact Hlast'|]. exact Hok'.
Defined.

(** *** C7 *)

Lemma load_failure_leaves_no_run_witness :
  let w := world_with stamping [] in
  let broken := env_of src_syntax_error in
  let empty := env_of src_no_handle in
  let data := Topic (GoAny (ANumber 4)) in
  load_failure broken w "SyntaxError: Unexpected token" /\
  returned (Execute broken w data) = Some "SyntaxError: Unexpected token" /\
  spawned (Execute broken w data) = None /\
  finish (Execute broken w data) = (broken, w) /\
  load_failure empty w no_handle /\
  returned (Execute empty w data) = Some no_handle /\
  spawned (Execute empty w data) = None /\
  finish (Execute empty w data) = (add_Output ["loading"] empty, w).
Proof.
  intros w broken empty data.
  assert (load_failure broken w "SyntaxError: Unexpected token") as Hb
    by reflexivity.
  assert (load_failure empty w no_handle) as He
    by (split; reflexivity).
  pose proof (load_failure_leaves_no_run broken w data _ Hb)
    as (Hret & Hsp & Hfin & _).
  pose proof (load_failure_leaves_no_run empty w data _ He)
    as (Hret' & Hsp' & Hfin' & _).
  split; [exact Hb|]. split; [exact Hret|]. split; [exact Hsp|].
  split; [exact Hfin|]. split; [exact He|]. split; [exact Hret'|].
  split; [exact Hsp'|]. exact Hfin'.
Defined.

(** *** C10 *)

Lemma sprint_from_doPrint (prev : bool) (n : nat) (l : list any) :
  sprint_from prev (n =? 0)%nat l = doPrint printable prev n l.
Proof.
  revert prev n. induction l as [|a rest IH]; intros prev n; simpl; [done|].
  rewrite <- (IH (isString a) (S n)). by destruct n.
Qed.

Lemma log_appends_Sprint_line_witness :
  let env := env_of src_throw in
  let w := world_with stamping [] in
  (forall a, Sprint a = fmt_Sprint printable a) /\
  log env w [] = (env, w, VUndefined) /\
  (exists env',
     log env w [str "working on "; num 4] = (env', w, VUndefined) /\
     Output (CurrentRun env') =
       [fmt_Sprint printable [AString "working on "; ANumber 4]] /\
     length (Output (CurrentRun env')) = 1%nat /\
     EnvAuth env' = EnvAuth env /\ Data env' = Data env /\
     (tight [AString "working on "; ANumber 4] = true ->
      fmt_Sprint printable [AString "working on "; ANumber 4] =
        concatenation printable [AString "working on "; ANumber 4]) /\
     ([num 4] = [] ->
      fmt_Sprint printable [AString "working on "] = "working on ")).
Proof.
  intros env w.
  pose proof (log_appends_Sprint_line printable env w
                (sprint_from_doPrint false 0)) as [Hnone Hsome].
  split; [exact (sprint_from_doPrint false 0)|].
  split; [exact Hnone|].
  exact (Hsome (str "working on ") [num 4]).
Defined.

(** [log(1, 2)] on the sample host, whose [Sprint] joins as [fmt.Sprint]
    does: the line appended is "1 2", while the printed forms of the two
    arguments written one after the other give "12". *)
Lemma log_joins_numbers_with_a_space :
  let env := env_of src_throw in
  let w := world_with stamping [] in
  let after := (log env w [num 1; num 2]).1.1 in
  Output (CurrentRun after) = ["1 2"] /\
  concatenation printable (map export [num 1; num 2]) = "12" /\
  Output (CurrentRun after) <>
    [concatenation printable (map export [num 1; num 2])].
Proof.
  intros env w after. repeat apply conj; [reflexivity | reflexivity |].
  vm_compute. discriminate.
Qed.

(** ** Runs for the further properties *)

Lemma clean_success_converts_witness :
  clean milk_stored = (milk_clean, None) /\
  milk_clean !! "title" = milk_stored !! "title" /\
  (exists oid, AObjectID oid1 = AObjectID oid /\
               milk_clean !! "id" = Some (AString (Hex oid))).
Proof.
  assert (clean milk_stored = (milk_clean, None)) as Hclean
    by (vm_compute; reflexivity).
  pose proof (clean_success_converts milk_stored milk_clean Hclean)
    as [Hother Hids].
  split; [exact Hclean|]. split.
  - apply Hother; discriminate.
  - exact (Hids "id" (or_introl eq_refl)).
Defined.

Lemma clean_succeeds_iff_witness :
  (clean milk_stored).2 = None /\ (clean milk_clean).2 <> None.
Proof.
  split.
  - exact (proj2 (clean_succeeds_iff milk_stored) (conj eq_refl eq_refl)).
  - intros H. apply (proj1 (clean_succeeds_iff milk_clean)) in H as [H _].
    vm_compute in H. discriminate H.
Defined.

Lemma clean_fails_after_converting_id_witness :
  clean milk_mixed =
    (<["id" := AString hex1]> milk_mixed,
     Some "unable to cast document accountId").
Proof.
  exact (clean_fails_after_converting_id milk_mixed oid1 eq_refl eq_refl).
Defined.

Lemma clean_all_Ok_iff_witness :
  clean_all [milk_stored; milk] = Ok [milk_clean; milk].
Proof.
  apply (proj2 (clean_all_Ok_iff [milk_stored; milk] [milk_clean; milk])).
  repeat constructor; vm_compute; reflexivity.
Defined.

Lemma clean_all_first_error_witness :
  clean_all [milk_stored; milk_clean; milk] = Err "unable to cast document id".
Proof.
  apply (proj2 (clean_all_first_error [milk_stored; milk_clean; milk]
                  "unable to cast document id")).
  exists [milk_stored], milk_clean, [milk].
  split; [reflexivity|]. split.
  - repeat constructor.
  - vm_compute. reflexivity.
Defined.

Lemma capabilities_return_sanitized_witness :
  exists r : Result,
    (create (env_of src_create) (world_with stamping [])
       [str "todos"; obj milk]).2 = VGo (GoResult r) /\
    script_safe (Content r).
Proof.
  refine (capabilities_return_sanitized cap_create (env_of src_create)
            (world_with stamping []) [str "todos"; obj milk] _).
  discriminate.
Defined.

Lemma data_capability_footprint_witness :
  let env := env_of src_create in
  let w := world_with stamping [] in
  let after := del env w [str "todos"; str hex1] in
  after.1.1 = env /\
  (calls after.1.2 = calls w \/
   exists e, is_store_call e = true /\ calls after.1.2 = calls w ++ [e]).
Proof.
  exact (data_capability_footprint cap_del (env_of src_create)
           (world_with stamping []) [str "todos"; str hex1] eq_refl).
Defined.

Lemma success_needs_the_call_witness :
  let env := env_of src_create in
  let w := world_with stamping [] in
  exists e,
    (is_store_call e = true \/ exists m, e = CallPublish m) /\
    calls (create env w [str "todos"; obj milk]).1.2 = calls w ++ [e].
Proof.
  refine (success_needs_the_call cap_create (env_of src_create)
            (world_with stamping []) [str "todos"; obj milk]
            (CDoc milk_clean) _ _ eq_refl); discriminate.
Defined.

Lemma send_publishes_iff_ready_witness :
  let env := env_of src_send in
  let w := world_with stamping [] in
  (exists typ channel b,
     export_string (str "notify") = Ok typ /\
     export_string (str "room1") = Ok channel /\
     marshal (export (num 1)) = Ok b /\
     calls (send env w [str "notify"; num 1; str "room1"]).1.2 =
       calls w ++
       [CallPublish {| SID := Hex (ID (Data env)); Type_ := typ; Data_ := b;
                       Channel := channel; Token := token |}]) /\
  (exists text, send env w [str "notify"; num 1] = (env, w, failure text)).
Proof.
  split.
  - exact (send_publishes_iff_ready (env_of src_send)
             (world_with stamping []) [str "notify"; num 1; str "room1"]).
  - exact (send_publishes_iff_ready (env_of src_send)
             (world_with stamping []) [str "notify"; num 1]).
Defined.

Lemma list_null_params_as_omitted_witness :
  let env := env_of src_create in
  let w := world_with stamping [milk_stored] in
  list_ env w [str "todos"; VNull; num 5] = list_ env w [str "todos"].
Proof.
  exact (list_null_params_as_omitted (env_of src_create)
           (world_with stamping [milk_stored]) (str "todos") VNull [num 5]
           (or_introl eq_refl)).
Defined.

Lemma query_null_params_as_omitted_witness :
  let env := env_of src_create in
  let w := world_with stamping [milk_stored] in
  let clauses := VGo (GoAny (ASlice [])) in
  query env w [str "todos"; clauses; VUndefined] =
    query env w [str "todos"; clauses].
Proof.
  exact (query_null_params_as_omitted (env_of src_create)
           (world_with stamping [milk_stored]) (str "todos")
           (VGo (GoAny (ASlice []))) VUndefined [] (or_intror eq_refl)).
Defined.

Lemma query_store_call_witness :
  let env := env_of src_create in
  let w := world_with stamping [milk_stored] in
  let q := query env w [str "todos"; VGo (GoAny (ASlice []))] in
  q.1.2 = w \/
  exists col clauses filter params,
    export_string (str "todos") = Ok col /\
    export_clauses (VGo (GoAny (ASlice []))) = Ok clauses /\
    @ParseQuery host clauses = Ok filter /\
    @optional_params host [str "todos"; VGo (GoAny (ASlice []))] 2 = Ok params /\
    calls q.1.2 = calls w ++ [CallQuery col filter params] /\
    ext q.1.2 = (@Base_Query host (EnvAuth env) col filter params (ext w)).2.
Proof.
  intros env w q.
  exact (query_store_call env q.1.1 w q.1.2
           [str "todos"; VGo (GoAny (ASlice []))] q.2 eq_refl).
Defined.

Lemma prepareArguments_form_witness :
  prepareArguments (WebRequest form_request) =
    Ok [VGo (GoValues ∅); VGo (GoValues {["q" := ["page=2"]]});
        VGo (GoValues (Header form_request))].
Proof. exact (prepareArguments_form form_request ∅ eq_refl eq_refl). Defined.

Lemma prepareArguments_web_shape_witness :
  exists body,
    [num 7; VGo (GoValues {["q" := ["page=2"]]});
     VGo (GoValues (Header (json_request "7")))] =
      body ++ [VGo (GoValues {["q" := ["page=2"]]});
               VGo (GoValues (Header (json_request "7")))] /\
    (length body <= 1)%nat /\
    (length body = 1%nat <->
       Header_Get (Header (json_request "7")) "Content-Type" =
         "application/json" \/
       Header_Get (Header (json_request "7")) "Content-Type" =
         "application/x-www-form-urlencoded").
Proof.
  exact (prepareArguments_web_shape (json_request "7")
           [num 7; VGo (GoValues {["q" := ["page=2"]]});
            VGo (GoValues (Header (json_request "7")))] eq_refl).
Defined.

Lemma prepareArguments_no_content_type_witness :
  prepareArguments (WebRequest bare_request) =
    Ok [VGo (GoValues ∅); VGo (GoValues ∅)].
Proof.
  exact (prepareArguments_no_content_type bare_request (or_introl eq_refl)).
Defined.

Lemma prepareArguments_Err_witness :
  exists r, WebRequest (json_request "{oops") = WebRequest r /\
    ((Header_Get (Header r) "Content-Type" = "application/json" /\
      decode (Body r) = Err "invalid character") \/
     (Header_Get (Header r) "Content-Type" =
        "application/x-www-form-urlencoded" /\
      @ParseForm host r = Err "invalid character")).
Proof.
  exact (proj1 (prepareArguments_Err (WebRequest (json_request "{oops"))
                  "invalid character") eq_refl).
Defined.

Lemma Execute_nil_iff_handler_returned_witness :
  returned (Execute (env_of src_create) (world_with stamping [])
              (Topic (GoAny (AMap milk)))) = None /\
  spawned (Execute (env_of src_throw) (world_with stamping [])
             (Topic (GoAny (ANumber 4)))) <> Some None.
Proof.
  split.
  - exact (proj2 (Execute_nil_iff_handler_returned (env_of src_create)
                    (world_with stamping []) (Topic (GoAny (AMap milk))))
             eq_refl).
  - intros H.
    apply (proj2 (Execute_nil_iff_handler_returned (env_of src_throw)
                    (world_with stamping []) (Topic (GoAny (ANumber 4)))))
      in H.
    discriminate H.
Defined.

Lemma run_record_identity_witness :
  let env := env_of src_create in
  let w := world_with stamping [] in
  let final := (finish (Execute env w (Topic (GoAny (AMap milk))))).1 in
  EnvAuth final = EnvAuth env /\
  Data final = Data env /\
  RunVersion (CurrentRun final) = 3%Z /\
  RunID (CurrentRun final) = hex1 /\
  Started (CurrentRun final) = 1000%Z.
Proof.
  exact (run_record_identity (env_of src_create) (world_with stamping [])
           (Topic (GoAny (AMap milk))) None eq_refl).
Defined.

Lemma Execute_ignores_previous_run_witness :
  let env := env_of src_throw in
  let w := world_with stamping [] in
  let data := Topic (GoAny (ANumber 4)) in
  returned (Execute (set_CurrentRun stale env) w data) =
    returned (Execute env w data) /\
  (finish (Execute (set_CurrentRun stale env) w data)).1 =
    (finish (Execute env w data)).1 /\
  Output (CurrentRun (finish (Execute (set_CurrentRun stale env) w data)).1) =
    ["Function started"; "working on 4"; "Function completed"; "Error: boom"].
Proof.
  intros env w data.
  pose proof (Execute_ignores_previous_run env w data stale)
    as (Hret & _ & _ & Hsame).
  assert (spawned (Execute env w data) = Some (Some "Error: boom")) as Hsp
    by reflexivity.
  split; [exact Hret|]. split.
  - apply Hsame. rewrite Hsp. discriminate.
  - reflexivity.
Defined.
